(** * uhubctl: hub discovery, dual-hub correlation and port status decoding

    A shallow embedding of [src/usb.h] (the code shared by [uhubctl.c] and
    [uhubpwm.c]): [get_hub_info], [get_port_status], [print_port_status]
    and [usb_find_hubs], with the libusb calls they make replaced by the
    results those calls return, recorded per device.

    Conventions.
    - C [int] values are [Z]; counters are bounded by [MAX_HUBS] and status
      masks by 16 bits, and the shift of the port mask test is taken on 32
      bits.
    - C flags ([ppps], [actionable], [exact], [perm_ok]) are [bool].
    - A [char] buffer holding a NUL-terminated string is a [string]; the
      string functions stop at a NUL character the way the C ones do.
    - The global array [hubs] together with [hub_count] is a [list hub_info]
      whose length is [hub_count]. *)

From Stdlib Require Import ZArith Lia Bool Ascii String DecimalString.
From stdpp Require Import base list.

Local Open Scope string_scope.
Local Open Scope Z_scope.

(** ** Constants *)

Definition USB_PORT_STAT_CONNECTION  : Z := 0x0001.
Definition USB_PORT_STAT_ENABLE      : Z := 0x0002.
Definition USB_PORT_STAT_SUSPEND     : Z := 0x0004.
Definition USB_PORT_STAT_OVERCURRENT : Z := 0x0008.
Definition USB_PORT_STAT_RESET       : Z := 0x0010.
Definition USB_PORT_STAT_POWER       : Z := 0x0100.
Definition USB_PORT_STAT_LOW_SPEED   : Z := 0x0200.
Definition USB_PORT_STAT_HIGH_SPEED  : Z := 0x0400.
Definition USB_PORT_STAT_TEST        : Z := 0x0800.
Definition USB_PORT_STAT_INDICATOR   : Z := 0x1000.

Definition USB_SS_BCD                : Z := 0x0300.
Definition USB_PORT_STAT_LINK_STATE  : Z := 0x01e0.
Definition USB_SS_PORT_STAT_POWER    : Z := 0x0200.
Definition USB_SS_PORT_STAT_SPEED    : Z := 0x1c00.
Definition USB_PORT_STAT_SPEED_5GBPS : Z := 0x0000.

Definition USB_SS_PORT_LS_U0          : Z := 0x0000.
Definition USB_SS_PORT_LS_U1          : Z := 0x0020.
Definition USB_SS_PORT_LS_U2          : Z := 0x0040.
Definition USB_SS_PORT_LS_U3          : Z := 0x0060.
Definition USB_SS_PORT_LS_SS_DISABLED : Z := 0x0080.
Definition USB_SS_PORT_LS_RX_DETECT   : Z := 0x00a0.
Definition USB_SS_PORT_LS_SS_INACTIVE : Z := 0x00c0.
Definition USB_SS_PORT_LS_POLLING     : Z := 0x00e0.
Definition USB_SS_PORT_LS_RECOVERY    : Z := 0x0100.
Definition USB_SS_PORT_LS_HOT_RESET   : Z := 0x0120.
Definition USB_SS_PORT_LS_COMP_MOD    : Z := 0x0140.
Definition USB_SS_PORT_LS_LOOPBACK    : Z := 0x0160.

Definition HUB_CHAR_LPSM           : Z := 0x0003.
Definition HUB_CHAR_COMMON_LPSM    : Z := 0x0000.
Definition HUB_CHAR_INDV_PORT_LPSM : Z := 0x0001.
Definition HUB_CHAR_NO_LPSM        : Z := 0x0002.
Definition HUB_CHAR_OCPM           : Z := 0x0018.
Definition HUB_CHAR_COMMON_OCPM    : Z := 0x0000.
Definition HUB_CHAR_INDV_PORT_OCPM : Z := 0x0008.
Definition HUB_CHAR_NO_OCPM        : Z := 0x0010.

Definition MAX_HUB_CHAIN : nat := 8.
Definition MAX_HUBS      : nat := 128.

(** Constants of libusb.h, which the source includes. *)
Definition LIBUSB_CLASS_HUB           : Z := 9.
Definition LIBUSB_DT_HUB_NONVAR_SIZE  : Z := 7.
Definition LIBUSB_ERROR_INVALID_PARAM : Z := -2.
Definition LIBUSB_ERROR_ACCESS        : Z := -3.

(** The values of [enum libusb_error] other than success: what a failed
    [libusb_control_transfer] returns. *)
Definition libusb_error_codes : list Z :=
  [-1; -2; -3; -4; -5; -6; -7; -8; -9; -10; -11; -12; -99].

(** ** C strings *)

Definition NUL : ascii := Ascii.zero.

Definition char_code (c : ascii) : Z := Z.of_N (N_of_ascii c).

(** [tolower] of the C locale. *)
Definition tolower (c : ascii) : ascii :=
  let n := N_of_ascii c in
  if ((65 <=? n) && (n <=? 90))%N then ascii_of_N (n + 32) else c.

(** The character a [char*] points at: the terminator when the string is
    exhausted. *)
Definition head_char (s : string) : ascii :=
  match s with
  | EmptyString => NUL
  | String c _ => c
  end.

Definition tail_str (s : string) : string :=
  match s with
  | EmptyString => EmptyString
  | String _ r => r
  end.

Fixpoint strlen (s : string) : nat :=
  match s with
  | EmptyString => O
  | String c r => if Ascii.eqb c NUL then O else S (strlen r)
  end.

(** [strncasecmp s1 s2 n]: at most [n] characters are compared, folded to
    lower case; the result is the difference of the first pair that
    differs, and 0 when a terminator is reached on both sides. *)
Fixpoint strncasecmp (s1 s2 : string) (n : nat) : Z :=
  match n with
  | O => 0
  | S n' =>
      let c1 := tolower (head_char s1) in
      let c2 := tolower (head_char s2) in
      if negb (Ascii.eqb c1 c2) then char_code c1 - char_code c2
      else if Ascii.eqb c1 NUL then 0
      else strncasecmp (tail_str s1) (tail_str s2) n'
  end.

Fixpoint strcasecmp (s1 s2 : string) : Z :=
  let c1 := tolower (head_char s1) in
  let c2 := tolower (head_char s2) in
  match s1 with
  | EmptyString => char_code c1 - char_code c2
  | String _ r1 =>
      if negb (Ascii.eqb c1 c2) then char_code c1 - char_code c2
      else if Ascii.eqb c1 NUL then 0
      else strcasecmp r1 (tail_str s2)
  end.

(** [strchr s c]: the suffix of [s] that starts at the first [c], [None]
    for a null pointer. *)
Fixpoint strchr (s : string) (c : ascii) : option string :=
  match s with
  | EmptyString => None
  | String a r =>
      if Ascii.eqb a c then Some s
      else if Ascii.eqb a NUL then None
      else strchr r c
  end.

(** [%x] of one hexadecimal digit and [%04x] of a 16-bit value. *)
Definition hex_digit (d : Z) : ascii :=
  match d with
  | 0 => "0" | 1 => "1" | 2 => "2" | 3 => "3" | 4 => "4" | 5 => "5"
  | 6 => "6" | 7 => "7" | 8 => "8" | 9 => "9" | 10 => "a" | 11 => "b"
  | 12 => "c" | 13 => "d" | 14 => "e" | _ => "f"
  end%char.

Definition hex4 (v : Z) : string :=
  String (hex_digit (Z.shiftr v 12 mod 16))
    (String (hex_digit (Z.shiftr v 8 mod 16))
       (String (hex_digit (Z.shiftr v 4 mod 16))
          (String (hex_digit (v mod 16)) EmptyString))).

(** [%d]. *)
Definition dec (v : Z) : string := NilZero.string_of_int (Z.to_int v).

(** ** The USB access layer

    What libusb reports for one enumerated device.  The source calls
    libusb for each of these; the model keeps the answers in a record, so
    that asking twice gives the same answer. *)

Record usb_device := {
  (** return value of [libusb_get_device_descriptor] *)
  dev_desc_rc : Z;
  (** fields of the device descriptor, 16-bit ones after
      [libusb_le16_to_cpu] *)
  bDeviceClass : Z;
  bcdUSB : Z;
  idVendor : Z;
  idProduct : Z;
  (** return value of [libusb_open] *)
  dev_open_rc : Z;
  (** return value of the GET_DESCRIPTOR control transfer of
      [get_hub_info], and the bytes of [buf] after it *)
  hub_desc_len : Z;
  hub_desc_buf : list Z;
  (** [libusb_get_bus_number], and the [pcount] port numbers that
      [libusb_get_port_numbers] stores (none when it fails) *)
  bus_number : Z;
  port_numbers : list Z;
  (** what [get_device_description] leaves in the description buffer *)
  dev_description : string;
  (** GET_STATUS control transfer on a port: its return value and the 16
      bits it leaves in [ust.wPortStatus] *)
  port_xfer : Z -> Z * Z;
  (** description of the device attached to a port, as the search over
      [usb_devs] in [print_port_status] finds it *)
  port_description : Z -> string
}.

(** ** struct hub_info *)

Record hub_info := {
  dev : option usb_device;
  bcd_usb : Z;
  nports : Z;
  ppps : bool;
  actionable : bool;
  vendor : string;
  location : string;
  description : string
}.

(** [bzero(&info, sizeof(info))] *)
Definition hub_info_zero : hub_info :=
  {| dev := None; bcd_usb := 0; nports := 0; ppps := false;
     actionable := false; vendor := ""; location := ""; description := "" |}.

Definition set_actionable (b : bool) (h : hub_info) : hub_info :=
  {| dev := dev h; bcd_usb := bcd_usb h; nports := nports h; ppps := ppps h;
     actionable := b; vendor := vendor h; location := location h;
     description := description h |}.

Definition set_description (s : string) (h : hub_info) : hub_info :=
  {| dev := dev h; bcd_usb := bcd_usb h; nports := nports h; ppps := ppps h;
     actionable := actionable h; vendor := vendor h; location := location h;
     description := s |}.

(** ** get_hub_info *)

(** [buf[i]]; the buffer is zero-initialised. *)
Definition buf_byte (buf : list Z) (i : nat) : Z := default 0 (buf !! i).

(** The loop over [port_numbers]: ["-N"] for the first hop, [".N"] after. *)
Fixpoint location_hops (k : nat) (ports : list Z) : string :=
  match ports with
  | [] => ""
  | p :: rest =>
      ((if Nat.eqb k 0 then "-" else ".") ++ dec p) ++ location_hops (S k) rest
  end.

(** Lines 247-258: per-port power switching, decoded from
    [wHubCharacteristics[0]]. *)
Definition decode_ppps (wHubCharacteristics0 : Z) : bool :=
  let lpsm := Z.land wHubCharacteristics0 HUB_CHAR_LPSM in
  let ocpm := Z.land wHubCharacteristics0 HUB_CHAR_OCPM in
  (lpsm =? HUB_CHAR_INDV_PORT_LPSM) &&
  ((ocpm =? HUB_CHAR_INDV_PORT_OCPM) || (ocpm =? HUB_CHAR_COMMON_OCPM)).

Definition minlen : Z := LIBUSB_DT_HUB_NONVAR_SIZE + 2.

(** Returns the return code and the [info] structure as the call leaves
    it.  The strings are taken to fit their buffers. *)
Definition get_hub_info (d : usb_device) (info : hub_info) : Z * hub_info :=
  if negb (dev_desc_rc d =? 0) then (dev_desc_rc d, info)
  else if negb (bDeviceClass d =? LIBUSB_CLASS_HUB)
  then (LIBUSB_ERROR_INVALID_PARAM, info)
  else if dev_open_rc d =? 0 then
    let len := hub_desc_len d in
    if minlen <=? len then
      (0,
       {| dev := Some d;
          bcd_usb := bcdUSB d;
          nports := buf_byte (hub_desc_buf d) 2;
          ppps := decode_ppps (buf_byte (hub_desc_buf d) 3);
          actionable := actionable info;
          vendor := hex4 (idVendor d) ++ ":" ++ hex4 (idProduct d);
          location := dec (bus_number d) ++ location_hops 0 (port_numbers d);
          description := description info |})
    else (len, info)
  else (dev_open_rc d, info).

(** ** get_port_status *)

(** The value of an [int16_t] holding the 16 bits [w]. *)
Definition int16_of_word (w : Z) : Z :=
  if w mod 65536 <? 32768 then w mod 65536 else w mod 65536 - 65536.

(** [devh] is [None] for a null handle, and the device otherwise. *)
Definition get_port_status (devh : option usb_device) (port : Z) : Z :=
  match devh with
  | None => -1
  | Some d =>
      let '(rc, wPortStatus) := port_xfer d port in
      if rc <? 0 then rc else int16_of_word wPortStatus
  end.

(** ** print_port_status *)

(** [if (status & mask)] *)
Definition has_bits (status mask : Z) : bool := negb (Z.land status mask =? 0).

(** [if (c) printf(s)] *)
Definition say (c : bool) (s : string) : list string := if c then [s] else [].

(** What one line of the status display holds after ["Port %d: %04x"]:
    lines 407-448. *)
Definition port_status_labels (bcd port_status : Z) (descr : string)
  : list string :=
  (if bcd <? USB_SS_BCD then
     if port_status =? 0 then [" off"]
     else
       say (has_bits port_status USB_PORT_STAT_POWER) " power" ++
       say (has_bits port_status USB_PORT_STAT_INDICATOR) " indicator" ++
       say (has_bits port_status USB_PORT_STAT_TEST) " test" ++
       say (has_bits port_status USB_PORT_STAT_HIGH_SPEED) " highspeed" ++
       say (has_bits port_status USB_PORT_STAT_LOW_SPEED) " lowspeed" ++
       say (has_bits port_status USB_PORT_STAT_SUSPEND) " suspend"
   else
     if port_status =? USB_SS_PORT_LS_SS_DISABLED then [" off"]
     else
       let link_state := Z.land port_status USB_PORT_STAT_LINK_STATE in
       say (has_bits port_status USB_SS_PORT_STAT_POWER) " power" ++
       say (Z.land port_status USB_SS_PORT_STAT_SPEED
              =? USB_PORT_STAT_SPEED_5GBPS) " 5gbps" ++
       say (link_state =? USB_SS_PORT_LS_U0) " U0" ++
       say (link_state =? USB_SS_PORT_LS_U1) " U1" ++
       say (link_state =? USB_SS_PORT_LS_U2) " U2" ++
       say (link_state =? USB_SS_PORT_LS_U3) " U3" ++
       say (link_state =? USB_SS_PORT_LS_SS_DISABLED) " SS.Disabled" ++
       say (link_state =? USB_SS_PORT_LS_RX_DETECT) " Rx.Detect" ++
       say (link_state =? USB_SS_PORT_LS_SS_INACTIVE) " SS.Inactive" ++
       say (link_state =? USB_SS_PORT_LS_POLLING) " Polling" ++
       say (link_state =? USB_SS_PORT_LS_RECOVERY) " Recovery" ++
       say (link_state =? USB_SS_PORT_LS_HOT_RESET) " HotReset" ++
       say (link_state =? USB_SS_PORT_LS_COMP_MOD) " Compliance" ++
       say (link_state =? USB_SS_PORT_LS_LOOPBACK) " Loopback") ++
  say (has_bits port_status USB_PORT_STAT_RESET) " reset" ++
  say (has_bits port_status USB_PORT_STAT_OVERCURRENT) " oc" ++
  say (has_bits port_status USB_PORT_STAT_ENABLE) " enable" ++
  say (has_bits port_status USB_PORT_STAT_CONNECTION) " connect" ++
  say (has_bits port_status USB_PORT_STAT_CONNECTION)
      (" [" ++ descr ++ "]")%string.

(** What the function writes, one entry per port it reports on. *)
Inductive port_output :=
  | CannotRead (port : Z)
    (** the message on stderr: ["cannot read port %d status, ..."] *)
  | PortLine (port : Z) (port_status : Z) (labels : list string).
    (** the line on stdout: ["  Port %d: %04x"], then the labels *)

Definition output_port (o : port_output) : Z :=
  match o with
  | CannotRead p => p
  | PortLine p _ _ => p
  end.

(** The value of a 32-bit [int] holding the 32 bits of [w]. *)
Definition int32_of_word (w : Z) : Z :=
  if w mod 4294967296 <? 2147483648 then w mod 4294967296
  else w mod 4294967296 - 4294967296.

(** [1 << n] on an [int].  C defines it for [0 <= n <= 30]; outside that
    range the model takes what x86 computes: the count modulo 32 and the
    result wrapped to 32 bits. *)
Definition shl1_int (n : Z) : Z := int32_of_word (Z.shiftl 1 (n mod 32)).

(** [portmask > 0 && (portmask & (1 << (port-1))) == 0]: the port is
    skipped. *)
Definition port_skipped (portmask port : Z) : bool :=
  (0 <? portmask) && (Z.land portmask (shl1_int (port - 1)) =? 0).

(** The body of the loop over ports, from [port] on, for [n] more ports. *)
Fixpoint print_ports (d : usb_device) (bcd portmask : Z) (n : nat) (port : Z)
  : list port_output :=
  match n with
  | O => []
  | S n' =>
      if port_skipped portmask port
      then print_ports d bcd portmask n' (port + 1)
      else
        let port_status := get_port_status (Some d) port in
        if port_status =? -1 then [CannotRead port]
        else
          PortLine port port_status
            (port_status_labels bcd port_status (port_description d port))
          :: print_ports d bcd portmask n' (port + 1)
  end.

Definition print_port_status (hub : hub_info) (portmask : Z)
  : list port_output :=
  match dev hub with
  | None => []
  | Some d =>
      if dev_open_rc d =? 0
      then print_ports d (bcd_usb hub) portmask (Z.to_nat (nports hub)) 1
      else []
  end.

(** ** usb_find_hubs *)

(** Lines 489-499: the flag a record is inserted with. *)
Definition filter_actionable (loc ven : string) (info : hub_info) : bool :=
  let a := true in
  let a :=
    if (0 <? strlen loc)%nat
    then (if negb (strcasecmp loc (location info) =? 0) then false else a)
    else a in
  let a :=
    if (0 <? strlen ven)%nat
    then (if negb (strncasecmp ven (vendor info) (strlen ven) =? 0)
          then false else a)
    else a in
  a.

(** The state of the scan: [hubs] (its length is [hub_count]) and
    [perm_ok]. *)
Definition scan_state : Type := list hub_info * bool.

(** One iteration of the loop over [usb_devs], lines 474-504. *)
Definition scan_step (loc ven : string) (st : scan_state) (d : usb_device)
  : scan_state :=
  let '(hubs, perm_ok) := st in
  if (dev_desc_rc d =? 0) && negb (bDeviceClass d =? LIBUSB_CLASS_HUB)
  then st
  else
    let '(rc, info) := get_hub_info d hub_info_zero in
    let perm_ok := if negb (rc =? 0) then false else perm_ok in
    let info := set_description (dev_description d) info in
    if ppps info then
      if (List.length hubs <? MAX_HUBS)%nat
      then ((hubs ++ [set_actionable (filter_actionable loc ven info) info])%list,
            perm_ok)
      else (hubs, perm_ok)
    else (hubs, perm_ok).

Fixpoint scan (loc ven : string) (st : scan_state) (devs : list usb_device)
  : scan_state :=
  match devs with
  | [] => st
  | d :: rest => scan loc ven (scan_step loc ven st d) rest
  end.

(** [hubs[k].bcd_usb < USB_SS_BCD] *)
Definition below_ss (h : hub_info) : bool := bcd_usb h <? USB_SS_BCD.

(** The inner loop over [j], lines 516-550, from index [j] on with [rest]
    the records at [j], [j+1], ...  [m] is [match]: [None] stands for -1.
    The result is the value of [match] when the loop ends or breaks. *)
Fixpoint find_dual (hi : hub_info) (i j : nat) (rest : list hub_info)
    (m : option nat) : option nat :=
  match rest with
  | [] => m
  | hj :: rest' =>
      if Nat.eqb i j then find_dual hi i (S j) rest' m
      else if Bool.eqb (below_ss hi) (below_ss hj)
      then find_dual hi i (S j) rest' m
      else if negb (strncasecmp (vendor hi) (vendor hj) 4 =? 0)
      then find_dual hi i (S j) rest' m
      else
        let m' :=
          match m with
          | None => if negb (actionable hj) then Some j else None
          | Some _ => m
          end in
        match strchr (location hi) "-", strchr (location hj) "-" with
        | Some p1, Some p2 =>
            if strcasecmp p1 p2 =? 0 then Some j
            else find_dual hi i (S j) rest' m'
        | _, _ => find_dual hi i (S j) rest' m'
        end
  end.

(** The state of the correlation pass: [hubs] and [hub_phys_count]. *)
Definition corr_state : Type := list hub_info * Z.

(** One iteration of the loop over [i], lines 506-553. *)
Definition correlate_step (exact : bool) (i : nat) (st : corr_state)
  : corr_state :=
  let '(hubs, hub_phys_count) := st in
  match hubs !! i with
  | None => st
  | Some hi =>
      if negb (actionable hi) then st
      else
        let hub_phys_count :=
          if below_ss hi || exact then hub_phys_count + 1
          else hub_phys_count in
        if exact then (hubs, hub_phys_count)
        else
          match find_dual hi i 0 hubs None with
          | Some m => (alter (set_actionable true) m hubs, hub_phys_count)
          | None => (hubs, hub_phys_count)
          end
  end.

(** [n] iterations of the loop, starting at index [i]. *)
Fixpoint correlate_loop (exact : bool) (n i : nat) (st : corr_state)
  : corr_state :=
  match n with
  | O => st
  | S n' => correlate_loop exact n' (S i) (correlate_step exact i st)
  end.

(** Lines 505-553: [hub_phys_count = 0], then the loop for
    [i = 0 .. hub_count-1]. *)
Definition correlate (exact : bool) (hubs : list hub_info) : corr_state :=
  correlate_loop exact (List.length hubs) 0 (hubs, 0).

(** What the call leaves behind: its return value and the globals. *)
Record find_result := {
  ret : Z;
  hubs : list hub_info;
  hub_phys_count : Z;
  perm_ok : bool
}.

Definition hub_count (r : find_result) : nat := List.length (hubs r).

(** [usb_find_hubs(location, vendor, exact)] with [usb_devs] holding
    [devs], on the initial globals ([hub_count = 0]). *)
Definition usb_find_hubs (loc ven : string) (exact : bool)
    (devs : list usb_device) : find_result :=
  let '(hubs0, perm_ok) := scan loc ven ([], true) devs in
  let '(hubs1, count) := correlate exact hubs0 in
  {| ret := if negb perm_ok && (count =? 0) then LIBUSB_ERROR_ACCESS
            else count;
     hubs := hubs1;
     hub_phys_count := count;
     perm_ok := perm_ok |}.

(** ** Sample devices *)

(** A hub that answers every request: 4 ports, per-port power switching
    and per-port over-current protection. *)
Definition sample_hub (bcd vid pid bus : Z) (ports : list Z) : usb_device :=
  {| dev_desc_rc := 0; bDeviceClass := LIBUSB_CLASS_HUB; bcdUSB := bcd;
     idVendor := vid; idProduct := pid; dev_open_rc := 0;
     hub_desc_len := 9;
     hub_desc_buf := [9; 0x29; 4; 0x09; 0x00; 50; 0; 0; 0xff];
     bus_number := bus; port_numbers := ports;
     dev_description := "";
     port_xfer := fun _ => (4, 0x0100);
     port_description := fun _ => "" |}.

(** A device whose descriptor cannot be read. *)
Definition unreadable_device : usb_device :=
  {| dev_desc_rc := LIBUSB_ERROR_ACCESS; bDeviceClass := 0; bcdUSB := 0;
     idVendor := 0; idProduct := 0; dev_open_rc := LIBUSB_ERROR_ACCESS;
     hub_desc_len := 0; hub_desc_buf := [];
     bus_number := 1; port_numbers := [];
     dev_description := "";
     port_xfer := fun _ => (LIBUSB_ERROR_ACCESS, 0);
     port_description := fun _ => "" |}.

(** * Vocabulary of the statements *)

(** Bits [lo .. lo+width-1] of [w], as a number. *)
Definition bit_field (w lo width : Z) : Z :=
  Z.land (Z.shiftr w lo) (Z.ones width).

(** The two bytes of [wHubCharacteristics] in the descriptor carry the
    16-bit word [w], low byte first. *)
Definition carries_characteristics (d : usb_device) (w : Z) : Prop :=
  buf_byte (hub_desc_buf d) 3 = Z.land w 0xff /\
  buf_byte (hub_desc_buf d) 4 = Z.shiftr w 8.

(** The hub descriptor of [d] was read in full. *)
Definition hub_descriptor_read (d : usb_device) : Prop :=
  dev_desc_rc d = 0 /\ bDeviceClass d = LIBUSB_CLASS_HUB /\
  dev_open_rc d = 0 /\ minlen <= hub_desc_len d.

(** A device that differs from [d] in the answer to GET_STATUS only. *)
Definition with_port_xfer (f : Z -> Z * Z) (d : usb_device) : usb_device :=
  {| dev_desc_rc := dev_desc_rc d; bDeviceClass := bDeviceClass d;
     bcdUSB := bcdUSB d; idVendor := idVendor d; idProduct := idProduct d;
     dev_open_rc := dev_open_rc d; hub_desc_len := hub_desc_len d;
     hub_desc_buf := hub_desc_buf d; bus_number := bus_number d;
     port_numbers := port_numbers d; dev_description := dev_description d;
     port_xfer := f; port_description := port_description d |}.

(** No NUL inside: the string is the whole content of its buffer. *)
Fixpoint nul_free (s : string) : bool :=
  match s with
  | EmptyString => true
  | String c r => negb (Ascii.eqb c NUL) && nul_free r
  end.

Fixpoint strlower (s : string) : string :=
  match s with
  | EmptyString => EmptyString
  | String c r => String (tolower c) (strlower r)
  end.

(** Equal, letter case ignored. *)
Definition ci_equal (a b : string) : Prop := strlower a = strlower b.

(** [v] starts with [f], letter case ignored. *)
Definition ci_prefix (f v : string) : Prop :=
  exists rest, strlower v = (strlower f ++ rest)%string.

(** What holds of every record of the registry while it is filled. *)
Definition filtered_record (loc ven : string) (h : hub_info) : Prop :=
  ppps h = true /\
  actionable h = filter_actionable loc ven h /\
  nul_free (location h) = true /\
  nul_free (vendor h) = true.

(** [h'] is [h], except that its [actionable] flag may have been raised. *)
Definition promotes (h h' : hub_info) : Prop :=
  h' = h \/ h' = set_actionable true h.

(** The number of actionable records of a list. *)
Fixpoint count_actionable (l : list hub_info) : Z :=
  match l with
  | [] => 0
  | h :: rest => (if actionable h then 1 else 0) + count_actionable rest
  end.

(** The number of actionable records with [bcd_usb < USB_SS_BCD]. *)
Fixpoint count_actionable_below_ss (l : list hub_info) : Z :=
  match l with
  | [] => 0
  | h :: rest =>
      (if actionable h && below_ss h then 1 else 0)
      + count_actionable_below_ss rest
  end.

(** The device gets past the class test of the scan (line 478). *)
Definition is_candidate (d : usb_device) : bool :=
  negb ((dev_desc_rc d =? 0) && negb (bDeviceClass d =? LIBUSB_CLASS_HUB)).

(** [get_hub_info] reported a failure for the device. *)
Definition read_failed (d : usb_device) : bool :=
  negb (fst (get_hub_info d hub_info_zero) =? 0).

(** A hub with a USB 2 and a USB 3 persona, on buses 1 and 2. *)
Definition usb2_persona : usb_device := sample_hub 0x0210 0x0451 0x8142 1 [1].
Definition usb3_persona : usb_device := sample_hub 0x0300 0x0451 0x8140 2 [1].

(** Three hubs of one vendor; the location filter selects the last. *)
Definition three_hubs : list usb_device :=
  [sample_hub 0x0300 0x0451 0x8140 3 [5];
   sample_hub 0x0210 0x0451 0x8142 1 [3];
   sample_hub 0x0300 0x0451 0x8140 2 [1]].

(** The output reports on [port]. *)
Definition reports_on (out : list port_output) (port : Z) : Prop :=
  exists o, In o out /\ output_port o = port.

(** A USB 2 hub with 4 ports whose port 2 answers GET_STATUS with -1
    (LIBUSB_ERROR_IO); the other ports are powered. *)
Definition hub_port2_unreadable : hub_info :=
  snd (get_hub_info
         (with_port_xfer
            (fun port => if port =? 2 then (-1, 0) else (4, 0x0100))
            usb2_persona)
         hub_info_zero).

(** * Further code *)

(** ** rtrim *)

(** [isspace] of the C locale. *)
Definition isspace (c : ascii) : bool :=
  let n := N_of_ascii c in
  ((n =? 32) || ((9 <=? n) && (n <=? 13)))%N.

(** A [char] buffer that is written in place is a [list ascii]; the string
    it holds ends before the first NUL. *)
Fixpoint c_str (buf : list ascii) : list ascii :=
  match buf with
  | [] => []
  | c :: rest => if Ascii.eqb c NUL then [] else c :: c_str rest
  end.

(** The loop of [rtrim], entered with [i = n - 1]: while [i >= 0] and
    [str[i]] is a space, [str[i] = 0] and [i--]. *)
Fixpoint rtrim_from (n : nat) (str : list ascii) : list ascii :=
  match n with
  | O => str
  | S i =>
      if isspace (default NUL (str !! i))
      then rtrim_from i (<[i := NUL]> str)
      else str
  end.

Definition rtrim (str : list ascii) : list ascii :=
  rtrim_from (List.length (c_str str)) str.

(** ** The power bit tested by [main] (uhubctl.c, line 279) *)

Definition power_mask (bcd : Z) : Z :=
  if bcd <? USB_SS_BCD then USB_PORT_STAT_POWER else USB_SS_PORT_STAT_POWER.

(** ** The [-p] option of [main] (uhubctl.c, lines 134-150) *)

Definition MAX_HUB_PORTS : Z := 9.
Definition ALL_HUB_PORTS : Z := Z.shiftl 1 MAX_HUB_PORTS - 1.

Definition isdigit (c : ascii) : bool :=
  let n := N_of_ascii c in ((48 <=? n) && (n <=? 57))%N.

(** The loop over the characters of [optarg]: the mask so far and the
    number of messages printed.  [1 << d] is defined in C for
    [0 <= d < 31] only; [None] stands for a shift outside that range. *)
Fixpoint parse_port_list (optarg : string) (opt_ports : Z) (messages : nat)
  : option (Z * nat) :=
  match optarg with
  | EmptyString => Some (opt_ports, messages)
  | String c rest =>
      if Ascii.eqb c NUL then Some (opt_ports, messages)
      else
        let messages :=
          if negb (isdigit c) || Ascii.eqb c "0" then S messages
          else messages in
        let d := char_code c - char_code "1" in
        if (0 <=? d) && (d <? 31)
        then parse_port_list rest (Z.lor opt_ports (Z.shiftl 1 d)) messages
        else None
  end.

(** [case 'p']: the new value of [opt_ports] and the number of messages. *)
Definition parse_ports_option (optarg : string) (opt_ports : Z)
  : option (Z * nat) :=
  if strcasecmp optarg "all" =? 0 then Some (opt_ports, O)
  else if (0 <? strlen optarg)%nat then parse_port_list optarg 0 O
  else Some (opt_ports, O).

(** ** One power phase of [main] (uhubctl.c, lines 268-304) *)




(** * Vocabulary of the further statements *)

(** The character of the digit [k], for [1 <= k <= 9]. *)
Definition digit_char (k : Z) : ascii := ascii_of_N (Z.to_N (48 + k)).

Fixpoint occurs (c : ascii) (s : string) : bool :=
  match s with
  | EmptyString => false
  | String a rest => Ascii.eqb a c || occurs c rest
  end.

(** Every character of the string is one of ['1'] .. ['9']. *)
Fixpoint port_digits (s : string) : bool :=
  match s with
  | EmptyString => true
  | String c rest =>
      ((49 <=? N_of_ascii c) && (N_of_ascii c <=? 57))%N && port_digits rest
  end.

(** The tests of the inner loop of the correlation pass on a record [hj]
    other than [hi]: opposite generation and the same first four
    characters of the vendor string. *)
Definition dual_candidate (hi hj : hub_info) : bool :=
  negb (Bool.eqb (below_ss hi) (below_ss hj)) &&
  (strncasecmp (vendor hi) (vendor hj) 4 =? 0).

(** Both locations have a ['-'] and agree from it on, letter case
    ignored. *)
Definition path_match (hi hj : hub_info) : bool :=
  match strchr (location hi) "-", strchr (location hj) "-" with
  | Some p1, Some p2 => strcasecmp p1 p2 =? 0
  | _, _ => false
  end.

(** The first index [k >= j], [k <> i], whose record (the records from [j]
    on are [rest]) passes [test]. *)
Fixpoint first_index (test : hub_info -> bool) (i j : nat)
    (rest : list hub_info) : option nat :=
  match rest with
  | [] => None
  | hj :: rest' =>
      if negb (Nat.eqb i j) && test hj then Some j
      else first_index test i (S j) rest'
  end.

(** The device is inserted into the registry when there is room. *)
Definition insertable (d : usb_device) : bool :=
  is_candidate d && ppps (snd (get_hub_info d hub_info_zero)).

(** The names of the link states, by the value of bits 5..8. *)
Definition link_state_labels : list string :=
  [" U0"; " U1"; " U2"; " U3"; " SS.Disabled"; " Rx.Detect"; " SS.Inactive";
   " Polling"; " Recovery"; " HotReset"; " Compliance"; " Loopback"].

Definition is_link_state_label (l : string) : bool :=
  existsb (String.eqb l) link_state_labels.

(** Decimal digits only. *)
Fixpoint digits_only (s : string) : bool :=
  match s with
  | EmptyString => true
  | String c rest => isdigit c && digits_only rest
  end.

(** The ports [first], [first + 1], ..., [n] of them. *)
Fixpoint port_range (first : Z) (n : nat) : list Z :=
  match n with
  | O => []
  | S n' => first :: port_range (first + 1) n'
  end.

(** The line printed for a port whose status was read. *)
Definition port_line (d : usb_device) (bcd port : Z) : port_output :=
  PortLine port (get_port_status (Some d) port)
    (port_status_labels bcd (get_port_status (Some d) port)
       (port_description d port)).

(** The port is displayed under the mask: the mask is not positive, or
    its bit [port - 1] is set. *)
Definition port_selected (portmask port : Z) : bool :=
  (portmask <=? 0) || Z.testbit portmask (port - 1).

(** * Properties *)

(** ** Bit fields *)

Lemma low5_cases (w : Z) :
  exists v, Z.land w 31 = v /\ 0 <= v < 32.
Proof.
  exists (Z.land w 31). split; [reflexivity|].
  change 31 with (Z.ones 5). rewrite Z.land_ones by lia.
  apply Z.mod_pos_bound. lia.
Qed.

Lemma decode_ppps_low5 (w : Z) :
  decode_ppps (Z.land w 0xff) = decode_ppps (Z.land w 31).
Proof.
  unfold decode_ppps, HUB_CHAR_LPSM, HUB_CHAR_OCPM.
  rewrite <- !Z.land_assoc. reflexivity.
Qed.

Lemma bit_field_low5 (w lo width : Z) :
  0 <= lo -> 0 <= width -> lo + width <= 5 ->
  bit_field w lo width = bit_field (Z.land w 31) lo width.
Proof.
  intros Hlo Hwd Hle. unfold bit_field.
  rewrite Z.shiftr_land, <- Z.land_assoc. f_equal.
  apply Z.bits_inj'. intros n Hn.
  rewrite Z.land_spec, Z.shiftr_spec by lia.
  change 31 with (Z.ones 5).
  destruct (Z.ltb_spec n width) as [Hlt|Hge].
  - rewrite !Z.ones_spec_low by lia. reflexivity.
  - rewrite (Z.ones_spec_high width) by lia. symmetry. apply andb_false_r.
Qed.

Lemma get_hub_info_read (d : usb_device) (info : hub_info) :
  hub_descriptor_read d ->
  fst (get_hub_info d info) = 0 /\
  ppps (snd (get_hub_info d info)) =
    decode_ppps (buf_byte (hub_desc_buf d) 3).
Proof.
  intros (Hrc & Hcls & Hopen & Hlen). unfold get_hub_info.
  rewrite Hrc, Hcls, Hopen. simpl.
  destruct (Z.leb_spec minlen (hub_desc_len d)); [|lia].
  split; reflexivity.
Qed.

(** C3.  For every 16-bit hub characteristics word [w] that a fully read
    hub descriptor carries, [get_hub_info] sets [ppps] exactly when the
    power switching bits 1:0 are 01 and the over-current bits 4:3 are 00
    or 01. *)
Theorem get_hub_info_ppps_iff (d : usb_device) (info : hub_info) (w : Z) :
  0 <= w < 65536 ->
  hub_descriptor_read d ->
  carries_characteristics d w ->
  ppps (snd (get_hub_info d info)) = true <->
  bit_field w 0 2 = 1 /\ (bit_field w 3 2 = 0 \/ bit_field w 3 2 = 1).
Proof.
  intros _ Hread [Hlo _].
  destruct (get_hub_info_read d info Hread) as [_ ->].
  rewrite Hlo, decode_ppps_low5.
  rewrite (bit_field_low5 w 0 2), (bit_field_low5 w 3 2) by lia.
  destruct (low5_cases w) as (v & -> & Hv).
  assert (Hcases : v = 0 \/ v = 1 \/ v = 2 \/ v = 3 \/ v = 4 \/ v = 5 \/
    v = 6 \/ v = 7 \/ v = 8 \/ v = 9 \/ v = 10 \/ v = 11 \/ v = 12 \/
    v = 13 \/ v = 14 \/ v = 15 \/ v = 16 \/ v = 17 \/ v = 18 \/ v = 19 \/
    v = 20 \/ v = 21 \/ v = 22 \/ v = 23 \/ v = 24 \/ v = 25 \/ v = 26 \/
    v = 27 \/ v = 28 \/ v = 29 \/ v = 30 \/ v = 31) by lia.
  repeat (destruct Hcases as [->|Hcases]); try subst v;
    vm_compute; intuition congruence.
Qed.

Lemma get_hub_info_ppps_iff_witness :
  ppps (snd (get_hub_info (sample_hub 0x0210 0x0451 0x8142 1 [1])
               hub_info_zero)) = true <->
  bit_field 0x0009 0 2 = 1 /\
  (bit_field 0x0009 3 2 = 0 \/ bit_field 0x0009 3 2 = 1).
Proof.
  apply (get_hub_info_ppps_iff _ _ 0x0009).
  - lia.
  - unfold hub_descriptor_read; vm_compute; intuition congruence.
  - unfold carries_characteristics; vm_compute; auto.
Defined.

(** ** Port status *)

Lemma int16_of_word_small (w : Z) :
  0 <= w < 32768 -> int16_of_word w = w.
Proof.
  intros Hw. unfold int16_of_word. rewrite Z.mod_small by lia.
  destruct (Z.ltb_spec w 32768); lia.
Qed.

Lemma int16_of_word_big (w : Z) :
  32768 <= w < 65536 -> int16_of_word w = w - 65536.
Proof.
  intros Hw. unfold int16_of_word. rewrite Z.mod_small by lia.
  destruct (Z.ltb_spec w 32768); lia.
Qed.

Lemma bit15_set (w : Z) :
  0 <= w < 65536 -> Z.testbit w 15 = true -> 32768 <= w.
Proof.
  intros Hw Hbit.
  destruct (Z.lt_ge_cases w 32768) as [Hlt|Hge]; [|exact Hge].
  assert (Hf : Z.testbit w 15 = false).
  { apply Z.testbit_false; [lia|].
    change (2 ^ 15) with 32768. rewrite Z.div_small by lia. reflexivity. }
  congruence.
Qed.

Lemma in_say (x : string) (c : bool) (s : string) :
  In x (say c s) -> x = s.
Proof.
  destruct c; simpl; intuition congruence.
Qed.

(** [H] says that a label is one of several printed by [say]; none of
    them is the label at hand. *)
Ltac no_such_label H :=
  rewrite ?in_app_iff in H;
  repeat (destruct H as [H|H]);
  apply in_say in H; simpl in H; discriminate H.

Lemma mask_split (w m : Z) :
  Z.lor (Z.land w m) (Z.land w (Z.lnot m)) = w.
Proof.
  apply Z.bits_inj'. intros n Hn.
  rewrite Z.lor_spec, !Z.land_spec, Z.lnot_spec by lia.
  destruct (Z.testbit w n), (Z.testbit m n); reflexivity.
Qed.

(** The labels other than the leading one never read [" off"]. *)
Lemma off_not_in_flags (ps : Z) (descr : string) :
  ~ In " off"
      (say (has_bits ps USB_PORT_STAT_RESET) " reset" ++
       say (has_bits ps USB_PORT_STAT_OVERCURRENT) " oc" ++
       say (has_bits ps USB_PORT_STAT_ENABLE) " enable" ++
       say (has_bits ps USB_PORT_STAT_CONNECTION) " connect" ++
       say (has_bits ps USB_PORT_STAT_CONNECTION)
           (" [" ++ descr ++ "]")%string).
Proof.
  intros H. no_such_label H.
Qed.

Lemma labels_off_iff (bcd ps : Z) (descr : string) :
  In " off" (port_status_labels bcd ps descr) <->
  (if bcd <? USB_SS_BCD then ps = 0 else ps = USB_SS_PORT_LS_SS_DISABLED).
Proof.
  unfold port_status_labels. rewrite in_app_iff.
  destruct (bcd <? USB_SS_BCD).
  - destruct (Z.eqb_spec ps 0) as [->|Hne].
    + split; [reflexivity|]. intros _. left. left. reflexivity.
    + split; [|intros; contradiction].
      intros [H|H]; [|destruct (off_not_in_flags _ _ H)].
      no_such_label H.
  - destruct (Z.eqb_spec ps USB_SS_PORT_LS_SS_DISABLED) as [->|Hne].
    + split; [reflexivity|]. intros _. left. left. reflexivity.
    + split; [|intros; contradiction].
      intros [H|H]; [|destruct (off_not_in_flags _ _ H)].
      no_such_label H.
Qed.

(** C9.  For a status word [w] that a successful transfer leaves, the
    line for the port holds [" off"] exactly when: below USB 3.0, [w] is 0;
    from USB 3.0 on, the link state field of [w] is SS.Disabled and no bit
    outside that field is set. *)
Theorem port_status_off_iff
    (d : usb_device) (port rc w bcd : Z) (descr : string) :
  port_xfer d port = (rc, w) ->
  0 <= rc ->
  0 <= w < 65536 ->
  In " off" (port_status_labels bcd (get_port_status (Some d) port) descr)
  <->
  (if bcd <? USB_SS_BCD then w = 0
   else Z.land w USB_PORT_STAT_LINK_STATE = USB_SS_PORT_LS_SS_DISABLED /\
        Z.land w (Z.lnot USB_PORT_STAT_LINK_STATE) = 0).
Proof.
  intros Hx Hrc Hw. rewrite labels_off_iff.
  assert (Hval : get_port_status (Some d) port = int16_of_word w).
  { unfold get_port_status. rewrite Hx.
    destruct (Z.ltb_spec rc 0); [lia|reflexivity]. }
  rewrite Hval.
  assert (Hext : forall c, 0 <= c < 32768 -> int16_of_word w = c <-> w = c).
  { intros c Hc. destruct (Z.lt_ge_cases w 32768).
    - rewrite int16_of_word_small by lia. reflexivity.
    - rewrite int16_of_word_big by lia. lia. }
  destruct (bcd <? USB_SS_BCD).
  - apply Hext. lia.
  - rewrite Hext by (unfold USB_SS_PORT_LS_SS_DISABLED; lia).
    split.
    + intros ->. split; reflexivity.
    + intros [Hls Hrest].
      rewrite <- (mask_split w USB_PORT_STAT_LINK_STATE), Hls, Hrest.
      reflexivity.
Qed.

Lemma port_status_off_iff_witness :
  let d := with_port_xfer (fun _ => (4, 0x0080))
             (sample_hub 0x0300 0x0451 0x8140 2 [1]) in
  In " off" (port_status_labels 0x0300 (get_port_status (Some d) 3) "")
  <->
  (if 0x0300 <? USB_SS_BCD then 0x0080 = 0
   else Z.land 0x0080 USB_PORT_STAT_LINK_STATE = USB_SS_PORT_LS_SS_DISABLED /\
        Z.land 0x0080 (Z.lnot USB_PORT_STAT_LINK_STATE) = 0).
Proof.
  intro d.
  apply (port_status_off_iff d 3 4 0x0080 0x0300 "");
    [reflexivity | lia | lia].
Defined.

(** ** Case-insensitive comparison *)

Lemma tolower_nul (c : ascii) : tolower c = NUL -> c = NUL.
Proof.
  destruct c as [[] [] [] [] [] [] [] []]; vm_compute; congruence.
Qed.

Lemma char_code_inj (c1 c2 : ascii) :
  char_code c1 - char_code c2 = 0 -> c1 = c2.
Proof.
  unfold char_code. intros H.
  assert (HN : N_of_ascii c1 = N_of_ascii c2) by lia.
  rewrite <- (ascii_N_embedding c1), <- (ascii_N_embedding c2), HN.
  reflexivity.
Qed.

Lemma nul_free_cons (c : ascii) (r : string) :
  nul_free (String c r) = true -> c <> NUL /\ nul_free r = true.
Proof.
  simpl. intros H. apply andb_true_iff in H as [Hc Hr].
  split; [|exact Hr]. intros ->. discriminate Hc.
Qed.

Lemma strlen_nul_free (s : string) :
  nul_free s = true -> strlen s = String.length s.
Proof.
  induction s as [|c r IH]; [reflexivity|].
  intros H. apply nul_free_cons in H as [Hc Hr]. simpl.
  destruct (Ascii.eqb_spec c NUL); [contradiction|].
  rewrite IH by exact Hr. reflexivity.
Qed.

Lemma strlen_zero (s : string) :
  nul_free s = true -> (0 <? strlen s)%nat = false <-> s = "".
Proof.
  intros H. rewrite strlen_nul_free by exact H.
  destruct s; cbn; split; intros E; try reflexivity; discriminate E.
Qed.

(** One comparison step on two characters that differ after folding. *)
Lemma code_diff (c1 c2 : ascii) :
  c1 <> c2 -> char_code c1 - char_code c2 <> 0.
Proof.
  intros Hne H. apply Hne, char_code_inj, H.
Qed.

Lemma strcasecmp_zero (a b : string) :
  nul_free a = true -> nul_free b = true ->
  strcasecmp a b = 0 <-> ci_equal a b.
Proof.
  unfold ci_equal. revert b.
  induction a as [|c1 r1 IH]; intros [|c2 r2] Ha Hb.
  - split; reflexivity.
  - apply nul_free_cons in Hb as [Hc2 _]. simpl. split; [|discriminate].
    intros H. apply char_code_inj in H.
    symmetry in H. apply tolower_nul in H. contradiction.
  - apply nul_free_cons in Ha as [Hc1 _]. simpl. split; [|discriminate].
    destruct (Ascii.eqb_spec (tolower c1) (tolower NUL)) as [He|Hne]; simpl.
    + apply tolower_nul in He. contradiction.
    + intros H. destruct (code_diff _ _ Hne H).
  - apply nul_free_cons in Ha as [Hc1 Hr1].
    apply nul_free_cons in Hb as [Hc2 Hr2]. simpl.
    destruct (Ascii.eqb_spec (tolower c1) (tolower c2)) as [He|Hne]; simpl.
    + destruct (Ascii.eqb_spec (tolower c1) NUL) as [Hz|_].
      * apply tolower_nul in Hz. contradiction.
      * rewrite (IH r2 Hr1 Hr2), He. split; [congruence|].
        intros H. injection H. auto.
    + split.
      * intros H. destruct (code_diff _ _ Hne H).
      * intros H. injection H. intros _ Hc. contradiction.
Qed.

Lemma strncasecmp_prefix (f v : string) :
  nul_free f = true -> nul_free v = true ->
  strncasecmp f v (strlen f) = 0 <-> ci_prefix f v.
Proof.
  unfold ci_prefix. revert v.
  induction f as [|c1 r1 IH]; intros v Hf Hv.
  - simpl. split; [|reflexivity]. intros _. exists (strlower v). reflexivity.
  - apply nul_free_cons in Hf as [Hc1 Hr1]. simpl.
    destruct (Ascii.eqb_spec c1 NUL); [contradiction|]. simpl.
    destruct v as [|c2 r2]; simpl.
    + destruct (Ascii.eqb_spec (tolower c1) (tolower NUL)) as [He|Hne]; simpl.
      * apply tolower_nul in He. contradiction.
      * split; [intros H; destruct (code_diff _ _ Hne H)|].
        intros [rest H]. discriminate H.
    + apply nul_free_cons in Hv as [Hc2 Hr2].
      destruct (Ascii.eqb_spec (tolower c1) (tolower c2)) as [He|Hne]; simpl.
      * destruct (Ascii.eqb_spec (tolower c1) NUL) as [Hz|_].
        { apply tolower_nul in Hz. contradiction. }
        rewrite (IH r2 Hr1 Hr2), He. split.
        { intros [rest H]. exists rest. rewrite H. reflexivity. }
        { intros [rest H]. exists rest. injection H. auto. }
      * split; [intros H; destruct (code_diff _ _ Hne H)|].
        intros [rest H]. injection H. intros _ Hc.
        symmetry in Hc. contradiction.
Qed.

(** The flag a record is inserted with (lines 489-499) is set exactly when
    the location filter is empty or equals the record's location path,
    letter case ignored, and the vendor filter is empty or is a prefix of
    the record's vendor id string, letter case ignored. *)
Lemma filter_actionable_iff (loc ven : string) (info : hub_info) :
  nul_free loc = true -> nul_free ven = true ->
  nul_free (location info) = true -> nul_free (vendor info) = true ->
  filter_actionable loc ven info = true <->
  (loc = "" \/ ci_equal loc (location info)) /\
  (ven = "" \/ ci_prefix ven (vendor info)).
Proof.
  intros Hloc Hven Hl Hv. unfold filter_actionable.
  pose proof (strlen_zero loc Hloc) as Hzl.
  pose proof (strlen_zero ven Hven) as Hzv.
  pose proof (strcasecmp_zero loc (location info) Hloc Hl) as Hcmp.
  pose proof (strncasecmp_prefix ven (vendor info) Hven Hv) as Hpre.
  assert (Hpe : ci_prefix "" (vendor info))
    by (exists (strlower (vendor info)); reflexivity).
  destruct (0 <? strlen loc)%nat;
    destruct (0 <? strlen ven)%nat;
    destruct (Z.eqb_spec (strcasecmp loc (location info)) 0);
    destruct (Z.eqb_spec
                (strncasecmp ven (vendor info) (strlen ven)) 0);
    simpl; intuition (try congruence; try discriminate; subst; auto).
Qed.

(** ** The strings of a record *)

Lemma nul_free_append (a b : string) :
  nul_free a = true -> nul_free b = true -> nul_free (a ++ b) = true.
Proof.
  intros Ha Hb. induction a as [|c r IH]; [exact Hb|].
  apply nul_free_cons in Ha as [Hc Hr]. simpl.
  rewrite IH by exact Hr.
  destruct (Ascii.eqb_spec c NUL); [contradiction|reflexivity].
Qed.

Lemma hex_digit_not_nul (d : Z) : Ascii.eqb (hex_digit d) NUL = false.
Proof.
  destruct d as [|p|p]; [reflexivity| |reflexivity].
  do 4 (try destruct p as [p|p|]); reflexivity.
Qed.

Lemma nul_free_hex4 (v : Z) : nul_free (hex4 v) = true.
Proof.
  unfold hex4. simpl. rewrite !hex_digit_not_nul. reflexivity.
Qed.

Lemma nul_free_uint (u : Decimal.uint) :
  nul_free (NilEmpty.string_of_uint u) = true.
Proof.
  induction u; simpl; auto.
Qed.

Lemma nul_free_dec (v : Z) : nul_free (dec v) = true.
Proof.
  unfold dec, NilZero.string_of_int.
  destruct (Z.to_int v) as [u|u]; unfold NilZero.string_of_uint;
    destruct u; simpl; auto using nul_free_uint.
Qed.

Lemma nul_free_location_hops (ports : list Z) (k : nat) :
  nul_free (location_hops k ports) = true.
Proof.
  revert k. induction ports as [|p rest IH]; intros k; [reflexivity|].
  simpl. apply nul_free_append; [|apply IH].
  apply nul_free_append; [destruct (Nat.eqb k 0); reflexivity|].
  apply nul_free_dec.
Qed.

Create HintDb cstr.
#[local] Hint Resolve nul_free_append nul_free_hex4 nul_free_dec
  nul_free_location_hops : cstr.

(** ** The scan *)

(** [get_hub_info] sets [ppps] on the zeroed record only when it fills
    it. *)
Lemma get_hub_info_ppps_filled (d : usb_device) (info : hub_info) :
  get_hub_info d hub_info_zero = (fst (get_hub_info d hub_info_zero), info) ->
  ppps info = true ->
  location info = (dec (bus_number d) ++ location_hops 0 (port_numbers d))%string /\
  vendor info = (hex4 (idVendor d) ++ ":" ++ hex4 (idProduct d))%string.
Proof.
  unfold get_hub_info.
  destruct (negb (dev_desc_rc d =? 0)); simpl;
    [intros [= <-]; discriminate|].
  destruct (negb (bDeviceClass d =? LIBUSB_CLASS_HUB)); simpl;
    [intros [= <-]; discriminate|].
  destruct (dev_open_rc d =? 0); simpl; [|intros [= <-]; discriminate].
  destruct (minlen <=? hub_desc_len d); simpl;
    [|intros [= <-]; discriminate].
  intros [= <-]. simpl. auto.
Qed.

Section Scan.

Variables loc ven : string.

Lemma scan_step_records (st : scan_state) (d : usb_device) :
  Forall (filtered_record loc ven) (fst st) ->
  Forall (filtered_record loc ven) (fst (scan_step loc ven st d)).
Proof.
  destruct st as [hs ok]. unfold scan_step. intros Hall.
  destruct ((dev_desc_rc d =? 0) && negb (bDeviceClass d =? LIBUSB_CLASS_HUB));
    [exact Hall|].
  destruct (get_hub_info d hub_info_zero) as [rc info] eqn:Hinfo.
  simpl. destruct (ppps info) eqn:Hp; [|exact Hall].
  destruct (List.length hs <? MAX_HUBS)%nat; [|exact Hall].
  simpl. apply Forall_app. split; [exact Hall|].
  constructor; [|constructor].
  destruct (get_hub_info_ppps_filled d info) as [Hl Hv];
    [rewrite Hinfo; reflexivity | exact Hp |].
  unfold filtered_record. cbn [ppps actionable location vendor
    set_actionable set_description].
  split; [exact Hp|]. split; [reflexivity|]. rewrite Hl, Hv. split.
  - auto with cstr.
  - apply nul_free_append; [|apply (nul_free_append ":")]; auto with cstr.
Qed.

Lemma scan_records (devs : list usb_device) :
  forall st, Forall (filtered_record loc ven) (fst st) ->
  Forall (filtered_record loc ven) (fst (scan loc ven st devs)).
Proof.
  induction devs as [|d rest IH]; intros st Hall; [exact Hall|].
  simpl. apply IH, scan_step_records, Hall.
Qed.

(** The state after a prefix of the device list is the scan of that
    prefix. *)
Lemma scan_app (devs1 devs2 : list usb_device) (st : scan_state) :
  scan loc ven st (devs1 ++ devs2) = scan loc ven (scan loc ven st devs1) devs2.
Proof.
  revert st. induction devs1 as [|d rest IH]; intros st; [reflexivity|].
  simpl. apply IH.
Qed.

End Scan.

(** C8.  After the scan, a record of the registry is actionable exactly
    when the location filter is empty or equals its location path, letter
    case ignored, and the vendor filter is empty or is a prefix of its
    vendor id string, letter case ignored. *)
Theorem user_filters_iff (loc ven : string) (devs : list usb_device)
    (h : hub_info) :
  nul_free loc = true -> nul_free ven = true ->
  In h (fst (scan loc ven ([], true) devs)) ->
  actionable h = true <->
  (loc = "" \/ ci_equal loc (location h)) /\
  (ven = "" \/ ci_prefix ven (vendor h)).
Proof.
  intros Hloc Hven Hin.
  pose proof (scan_records loc ven devs ([], true) (List.Forall_nil _)) as Hall.
  rewrite Forall_forall in Hall.
  destruct (Hall h) as (_ & Hact & Hl & Hv).
  { apply list_elem_of_In, Hin. }
  rewrite Hact. apply filter_actionable_iff; assumption.
Qed.

Lemma user_filters_iff_witness :
  let d := sample_hub 0x0210 0x1a2b 0x0002 1 [2] in
  let h := set_actionable true (snd (get_hub_info d hub_info_zero)) in
  actionable h = true <->
  ("" = "" \/ ci_equal "" (location h)) /\
  ("1A2B" = "" \/ ci_prefix "1A2B" (vendor h)).
Proof.
  intros d h.
  apply (user_filters_iff "" "1A2B" [d] h);
    [reflexivity | reflexivity | left; reflexivity].
Defined.

(** The example of the vendor filter: ["1a2b"] selects a record whose
    vendor id string is ["1A2B:0002"] and not one with ["2a2b:0001"]. *)
Example vendor_filter_example :
  let h1 := {| dev := None; bcd_usb := 0x0200; nports := 4; ppps := true;
               actionable := false; vendor := "1A2B:0002";
               location := "1-2"; description := "" |} in
  let h2 := {| dev := None; bcd_usb := 0x0200; nports := 4; ppps := true;
               actionable := false; vendor := "2a2b:0001";
               location := "1-3"; description := "" |} in
  filter_actionable "" "1a2b" h1 = true /\
  filter_actionable "" "1a2b" h2 = false /\
  filter_actionable "1-2" "" h1 = true /\
  filter_actionable "1-2" "" h2 = false.
Proof.
  repeat split; reflexivity.
Qed.

(** ** The correlation pass *)

Lemma promotes_fields (h h' : hub_info) :
  promotes h h' ->
  ppps h' = ppps h /\ bcd_usb h' = bcd_usb h /\
  (actionable h = true -> actionable h' = true).
Proof.
  intros [->| ->]; simpl; auto.
Qed.

Lemma promotes_trans (h1 h2 h3 : hub_info) :
  promotes h1 h2 -> promotes h2 h3 -> promotes h1 h3.
Proof.
  intros [->| ->] [->| ->]; unfold promotes; auto.
Qed.

Lemma promoted_refl (l : list hub_info) : Forall2 promotes l l.
Proof.
  apply Forall_Forall2_diag, Forall_forall. intros h _. left. reflexivity.
Qed.

Lemma promoted_trans (l1 l2 l3 : list hub_info) :
  Forall2 promotes l1 l2 -> Forall2 promotes l2 l3 -> Forall2 promotes l1 l3.
Proof.
  intros H12. revert l3.
  induction H12 as [|h1 h2 r1 r2 Hh _ IH]; intros l3 H23;
    inversion H23; subst; constructor; eauto using promotes_trans.
Qed.

Lemma promoted_alter (l : list hub_info) (m : nat) :
  Forall2 promotes l (alter (set_actionable true) m l).
Proof.
  apply Forall2_alter_r; [apply promoted_refl|].
  intros h h' _ _ [->| ->]; unfold promotes; auto.
Qed.

Lemma correlate_step_promoted (exact : bool) (i : nat) (st : corr_state) :
  Forall2 promotes (fst st) (fst (correlate_step exact i st)).
Proof.
  destruct st as [hs c]. unfold correlate_step.
  destruct (hs !! i) as [hi|]; [|apply promoted_refl].
  destruct (negb (actionable hi)); [apply promoted_refl|].
  destruct exact; [apply promoted_refl|].
  destruct (find_dual hi i 0 hs None);
    [apply promoted_alter|apply promoted_refl].
Qed.

Lemma correlate_loop_promoted (exact : bool) (n : nat) :
  forall i st,
  Forall2 promotes (fst st) (fst (correlate_loop exact n i st)).
Proof.
  induction n as [|n IH]; intros i st; [apply promoted_refl|].
  simpl. eapply promoted_trans; [apply correlate_step_promoted|apply IH].
Qed.

Lemma correlate_step_count (exact : bool) (i : nat) (st : corr_state) :
  snd st <= snd (correlate_step exact i st).
Proof.
  destruct st as [hs c]. unfold correlate_step.
  destruct (hs !! i) as [hi|]; [|simpl; lia].
  destruct (negb (actionable hi)); [simpl; lia|].
  destruct (below_ss hi || exact), exact;
    try destruct (find_dual hi i 0 hs None); simpl; lia.
Qed.

Lemma correlate_loop_count (exact : bool) (n : nat) :
  forall i st, snd st <= snd (correlate_loop exact n i st).
Proof.
  induction n as [|n IH]; intros i st; [simpl; lia|].
  simpl. pose proof (correlate_step_count exact i st).
  pose proof (IH (S i) (correlate_step exact i st)). lia.
Qed.

Lemma correlate_loop_exact (hs : list hub_info) (n : nat) :
  forall i c,
  correlate_loop true n i (hs, c) =
  (hs, c + count_actionable (take n (drop i hs))).
Proof.
  induction n as [|n IH]; intros i c.
  - simpl. f_equal. lia.
  - cbn [correlate_loop]. unfold correlate_step.
    destruct (hs !! i) as [hi|] eqn:Hi.
    + rewrite (drop_S hs hi i Hi). cbn [take count_actionable].
      destruct (actionable hi); cbn [negb].
      * rewrite orb_true_r, IH. f_equal. lia.
      * rewrite IH. f_equal.
    + rewrite IH. f_equal.
      rewrite !drop_ge by (apply lookup_ge_None in Hi; lia).
      rewrite !take_nil. reflexivity.
Qed.

Lemma correlate_exact (hs : list hub_info) :
  correlate true hs = (hs, count_actionable hs).
Proof.
  unfold correlate. rewrite correlate_loop_exact. simpl.
  rewrite drop_0, firstn_all. reflexivity.
Qed.

(** ** The registry holds PPPS hubs only *)

(** C7.  Whatever prefix [devs] of the device list has been scanned and
    however many iterations [n] of the correlation loop have run, every
    record of the registry has [ppps] set; so none with [ppps] clear is
    actionable. *)
Theorem registry_ppps (loc ven : string) (exact : bool)
    (devs : list usb_device) (n : nat) (h : hub_info) :
  In h (fst (correlate_loop exact n 0
               (fst (scan loc ven ([], true) devs), 0))) ->
  ppps h = true /\ ~ (ppps h = false /\ actionable h = true).
Proof.
  intros Hin.
  assert (Hp : ppps h = true).
  { apply list_elem_of_In, list_elem_of_lookup in Hin as [i Hi].
    pose proof (correlate_loop_promoted exact n 0
                  (fst (scan loc ven ([], true) devs), 0)) as Hprom.
    destruct (Forall2_lookup_r _ _ _ _ _ Hprom Hi) as (h0 & Hi0 & Hrel).
    apply promotes_fields in Hrel as (-> & _).
    pose proof (scan_records loc ven devs ([], true) (List.Forall_nil _))
      as Hall.
    rewrite Forall_lookup in Hall.
    apply (Hall i h0 Hi0). }
  split; [exact Hp|]. intros [Hf _]. congruence.
Qed.

Lemma registry_ppps_witness :
  let devs := [sample_hub 0x0210 0x0451 0x8142 1 [1];
               sample_hub 0x0300 0x0451 0x8140 2 [1]] in
  let h := set_actionable true
             (snd (get_hub_info (sample_hub 0x0300 0x0451 0x8140 2 [1])
                     hub_info_zero)) in
  ppps h = true /\ ~ (ppps h = false /\ actionable h = true).
Proof.
  intros devs h.
  apply (registry_ppps "1-1" "" false devs 2 h).
  right. left. reflexivity.
Defined.

(** ** The return value *)

Lemma scan_step_perm_ok (loc ven : string) (st : scan_state)
    (d : usb_device) :
  snd (scan_step loc ven st d) =
  snd st && negb (is_candidate d && read_failed d).
Proof.
  destruct st as [hs ok]. unfold scan_step, is_candidate, read_failed.
  destruct ((dev_desc_rc d =? 0) && negb (bDeviceClass d =? LIBUSB_CLASS_HUB));
    simpl; [rewrite andb_true_r; reflexivity|].
  destruct (get_hub_info d hub_info_zero) as [rc info]. simpl.
  destruct (ppps info); [destruct (List.length hs <? MAX_HUBS)%nat|];
    simpl; destruct (rc =? 0); simpl;
    rewrite ?andb_true_r, ?andb_false_r; reflexivity.
Qed.

Lemma scan_perm_ok (loc ven : string) (devs : list usb_device) :
  forall st,
  snd (scan loc ven st devs) = false <->
  snd st = false \/
  exists d, In d devs /\ is_candidate d = true /\ read_failed d = true.
Proof.
  induction devs as [|d rest IH]; intros st; simpl.
  - split; [auto|]. intros [H|(d & [] & _)]. exact H.
  - rewrite IH, scan_step_perm_ok. split.
    + intros [H|(x & Hx & Hc)].
      * apply andb_false_iff in H as [H|H]; [auto|].
        right. exists d. apply negb_false_iff, andb_true_iff in H. auto.
      * right. exists x. auto.
    + intros [H|(x & [<-|Hx] & Hc & Hf)].
      * left. rewrite H. reflexivity.
      * left. rewrite Hc, Hf. apply andb_false_r.
      * right. exists x. auto.
Qed.

(** When [get_hub_info] reports a failure for a scanned device: the
    device descriptor or the open failed, or the hub descriptor came back
    short but not empty (a transfer of 0 bytes leaves the return code 0). *)
Lemma read_failed_iff (d : usb_device) :
  is_candidate d = true ->
  read_failed d = true <->
  dev_desc_rc d <> 0 \/
  dev_open_rc d <> 0 \/
  (hub_desc_len d < minlen /\ hub_desc_len d <> 0).
Proof.
  unfold is_candidate, read_failed, get_hub_info.
  destruct (Z.eqb_spec (dev_desc_rc d) 0) as [Hd|Hd]; simpl.
  - destruct (Z.eqb_spec (bDeviceClass d) LIBUSB_CLASS_HUB); simpl;
      [intros _|discriminate].
    destruct (Z.eqb_spec (dev_open_rc d) 0) as [Ho|Ho]; simpl.
    + destruct (Z.leb_spec minlen (hub_desc_len d)); simpl.
      * split; [discriminate|]. intros [E|[E|E]]; lia.
      * destruct (Z.eqb_spec (hub_desc_len d) 0); simpl;
          split; try discriminate; try (intros [E|[E|E]]; lia); auto.
    + destruct (Z.eqb_spec (dev_open_rc d) 0); [contradiction|].
      simpl. split; auto.
  - intros _. destruct (Z.eqb_spec (dev_desc_rc d) 0); [contradiction|].
    simpl. split; auto.
Qed.

(** The return value on three device lists: an unreadable device alone,
    the same device next to a hub that can be used, and no device. *)
Example usb_find_hubs_return_examples :
  ret (usb_find_hubs "" "" false [unreadable_device]) = LIBUSB_ERROR_ACCESS /\
  ret (usb_find_hubs "" "" false [unreadable_device; usb2_persona]) = 1 /\
  ret (usb_find_hubs "" "" false []) = 0.
Proof.
  repeat split; reflexivity.
Qed.

(** ** Counting during the correlation pass *)

(** C1.  The USB 2 persona is enumerated first and the location filter
    names the USB 3 persona.  The pass promotes the USB 2 persona when it
    reaches the USB 3 one, after the index of the USB 2 persona has been
    passed: one actionable record below USB 3.0 is left, and the count
    returned is 0. *)
Theorem usb_find_hubs_misses_promoted_usb2 :
  let r := usb_find_hubs "2-1" "" false [usb2_persona; usb3_persona] in
  map (fun h => (location h, bcd_usb h, actionable h)) (hubs r) =
    [("1-1", 0x0210, true); ("2-1", 0x0300, true)] /\
  count_actionable_below_ss (hubs r) = 1 /\
  hub_phys_count r = 0 /\
  ret r = 0.
Proof.
  vm_compute. repeat split; reflexivity.
Qed.

(** C2, as stated, fails: a lone actionable USB 3.0 hub is not counted when
    [exact] is off. *)
Lemma usb3_not_counted_directly :
  let r := usb_find_hubs "" "" false [usb3_persona] in
  (exists h, hubs r !! 0%nat = Some h /\ actionable h = true /\
             USB_SS_BCD <= bcd_usb h) /\
  hub_phys_count r = 0.
Proof.
  split; [|reflexivity].
  eexists. split; [reflexivity|]. split; [reflexivity|].
  vm_compute. discriminate.
Qed.

(** ** Running the pass again *)

(** C5, as stated, fails: on the registry the scan leaves for
    [three_hubs], a second run promotes a further record and counts one
    more hub than the first. *)
Lemma correlate_not_idempotent :
  let hs0 := fst (scan "2-1" "" ([], true) three_hubs) in
  let once := correlate false hs0 in
  let twice := correlate false (fst once) in
  map actionable hs0 = [false; false; true] /\
  map actionable (fst once) = [false; true; true] /\
  map actionable (fst twice) = [true; true; true] /\
  snd once = 0 /\ snd twice = 1.
Proof.
  vm_compute. repeat split; reflexivity.
Qed.

(** C5, amended.  With [exact] set a second run gives what the first
    gave; in either mode a second run changes no record other than by
    raising its [actionable] flag. *)
Theorem correlate_twice (exact : bool) (hs : list hub_info) :
  correlate true (fst (correlate true hs)) = correlate true hs /\
  Forall2 promotes (fst (correlate exact hs))
    (fst (correlate exact (fst (correlate exact hs)))).
Proof.
  split.
  - rewrite !correlate_exact. reflexivity.
  - unfold correlate at 2.
    apply (correlate_loop_promoted exact _ 0
             (fst (correlate exact hs), 0)).
Qed.

(** ** A port whose status cannot be read *)

(** C6, as stated, fails: the failure on port 2 ends the display; ports 3
    and 4 are not reported on. *)
Lemma port_failure_stops_display :
  print_port_status hub_port2_unreadable 0 =
    [PortLine 1 0x0100 [" power"]; CannotRead 2] /\
  ~ reports_on (print_port_status hub_port2_unreadable 0) 3 /\
  ~ reports_on (print_port_status hub_port2_unreadable 0) 4.
Proof.
  split; [reflexivity|].
  split; intros (o & Hin & Hp); vm_compute in Hin;
    destruct Hin as [<-|[<-|[]]]; discriminate Hp.
Qed.

(** ** What the count is bounded by *)

Lemma count_below_ss_app (l1 l2 : list hub_info) :
  count_actionable_below_ss (l1 ++ l2) =
  count_actionable_below_ss l1 + count_actionable_below_ss l2.
Proof.
  induction l1 as [|h rest IH]; simpl; [reflexivity|].
  rewrite IH. lia.
Qed.

Lemma count_below_ss_promoted (l l' : list hub_info) :
  Forall2 promotes l l' ->
  count_actionable_below_ss l <= count_actionable_below_ss l'.
Proof.
  induction 1 as [|h h' r r' Hh _ IH]; simpl; [lia|].
  destruct Hh as [->| ->]; unfold below_ss; simpl;
    destruct (actionable h), (bcd_usb h <? USB_SS_BCD); simpl; lia.
Qed.

Lemma count_below_ss_nonneg (l : list hub_info) :
  0 <= count_actionable_below_ss l.
Proof.
  induction l as [|h rest IH]; simpl; [lia|].
  destruct (actionable h && below_ss h); lia.
Qed.

Lemma correlate_step_bound (i : nat) (st : corr_state) :
  snd st <= count_actionable_below_ss (take i (fst st)) ->
  snd (correlate_step false i st) <=
  count_actionable_below_ss (take (S i) (fst (correlate_step false i st))).
Proof.
  intros Hinv.
  pose proof (correlate_step_promoted false i st) as Hprom.
  pose proof (count_below_ss_promoted _ _ (Forall2_take _ _ _ i Hprom))
    as Hmono.
  destruct (fst st !! i) as [hi|] eqn:Hi.
  - destruct (Forall2_lookup_l _ _ _ _ _ Hprom Hi) as (hi' & Hi' & Hrel).
    rewrite (take_S_r _ _ _ Hi'), count_below_ss_app. simpl.
    apply promotes_fields in Hrel as (_ & Hbcd & Hact).
    assert (Hc : snd (correlate_step false i st) =
                 snd st + (if actionable hi && below_ss hi then 1 else 0)).
    { destruct st as [hs c]. simpl in Hi. unfold correlate_step.
      rewrite Hi. destruct (actionable hi); simpl; [|lia].
      rewrite orb_false_r.
      destruct (below_ss hi), (find_dual hi i 0 hs None); simpl; lia. }
    rewrite Hc. unfold below_ss in *. rewrite Hbcd.
    destruct (actionable hi); simpl.
    + rewrite Hact by reflexivity. simpl.
      destruct (bcd_usb hi <? USB_SS_BCD); lia.
    + destruct (actionable hi' && (bcd_usb hi <? USB_SS_BCD)); lia.
  - assert (Hst : correlate_step false i st = st).
    { destruct st as [hs c]. simpl in Hi. unfold correlate_step.
      rewrite Hi. reflexivity. }
    rewrite Hst in *. apply lookup_ge_None in Hi.
    rewrite take_ge by lia. rewrite take_ge in Hinv by lia. exact Hinv.
Qed.

Lemma correlate_loop_bound (n : nat) :
  forall i st,
  snd st <= count_actionable_below_ss (take i (fst st)) ->
  snd (correlate_loop false n i st) <=
  count_actionable_below_ss
    (take (i + n) (fst (correlate_loop false n i st))).
Proof.
  induction n as [|n IH]; intros i st Hinv.
  - simpl. rewrite Nat.add_0_r. exact Hinv.
  - cbn [correlate_loop]. replace (i + S n)%nat with (S i + n)%nat by lia.
    apply IH, correlate_step_bound, Hinv.
Qed.

(** With [exact] off the count never exceeds the number of actionable
    records below USB 3.0 that the pass leaves; the evaluation for C1
    shows that it can fall short of it. *)
Lemma hub_phys_count_le (loc ven : string) (devs : list usb_device) :
  let r := usb_find_hubs loc ven false devs in
  0 <= hub_phys_count r <= count_actionable_below_ss (hubs r).
Proof.
  unfold usb_find_hubs.
  destruct (scan loc ven ([], true) devs) as [hs0 ok].
  pose proof (correlate_loop_bound (List.length hs0) 0 (hs0, 0)) as Hle.
  pose proof (correlate_loop_count false (List.length hs0) 0 (hs0, 0)) as Hge.
  pose proof (correlate_loop_promoted false (List.length hs0) 0 (hs0, 0))
    as Hprom.
  apply Forall2_length in Hprom.
  fold (correlate false hs0) in Hle, Hge, Hprom.
  destruct (correlate false hs0) as [hs1 cnt]. simpl in *.
  rewrite take_ge in Hle by lia.
  split; [exact Hge|]. apply Hle. lia.
Qed.

(** * Further properties *)

(** ** get_hub_info *)

(** X1.  Unless the hub descriptor is read in full, [get_hub_info] leaves
    [info] as it found it; its return code is then 0 only when the
    descriptor transfer returned 0 bytes. *)
Theorem get_hub_info_failure_untouched (d : usb_device) (info : hub_info) :
  ~ hub_descriptor_read d ->
  snd (get_hub_info d info) = info /\
  (fst (get_hub_info d info) = 0 <->
   dev_desc_rc d = 0 /\ bDeviceClass d = LIBUSB_CLASS_HUB /\
   dev_open_rc d = 0 /\ hub_desc_len d = 0).
Proof.
  unfold hub_descriptor_read, get_hub_info, minlen, LIBUSB_DT_HUB_NONVAR_SIZE.
  intros Hno.
  destruct (Z.eqb_spec (dev_desc_rc d) 0) as [Hd|Hd]; simpl;
    [|split; [reflexivity|]; split; [contradiction|intros [E _]; contradiction]].
  destruct (Z.eqb_spec (bDeviceClass d) LIBUSB_CLASS_HUB) as [Hc|Hc]; simpl;
    [|split; [reflexivity|]; split;
      [discriminate|intros (_ & E & _); contradiction]].
  destruct (Z.eqb_spec (dev_open_rc d) 0) as [Ho|Ho]; simpl;
    [|split; [reflexivity|]; split;
      [contradiction|intros (_ & _ & E & _); contradiction]].
  destruct (Z.leb_spec (7 + 2) (hub_desc_len d)) as [Hl|Hl]; simpl.
  - destruct Hno. auto.
  - split; [reflexivity|]. split; [auto|]. intros (_ & _ & _ & E). exact E.
Qed.

Lemma get_hub_info_failure_untouched_witness :
  let d := {| dev_desc_rc := 0; bDeviceClass := LIBUSB_CLASS_HUB;
              bcdUSB := 0x0200; idVendor := 0x05e3; idProduct := 0x0608;
              dev_open_rc := 0; hub_desc_len := 0; hub_desc_buf := [];
              bus_number := 1; port_numbers := [4];
              dev_description := "";
              port_xfer := fun _ => (4, 0);
              port_description := fun _ => "" |} in
  snd (get_hub_info d hub_info_zero) = hub_info_zero /\
  (fst (get_hub_info d hub_info_zero) = 0 <->
   dev_desc_rc d = 0 /\ bDeviceClass d = LIBUSB_CLASS_HUB /\
   dev_open_rc d = 0 /\ hub_desc_len d = 0).
Proof.
  intro d. apply (get_hub_info_failure_untouched d hub_info_zero).
  intros (_ & _ & _ & H). vm_compute in H. apply H. reflexivity.
Defined.

Lemma digits_only_uint (u : Decimal.uint) :
  digits_only (NilEmpty.string_of_uint u) = true.
Proof.
  induction u; simpl; auto.
Qed.

Lemma digits_only_dec (v : Z) : 0 <= v -> digits_only (dec v) = true.
Proof.
  intros Hv. unfold dec.
  destruct v as [|p|p]; [reflexivity| |lia].
  simpl. unfold NilZero.string_of_uint.
  destruct (Pos.to_uint p) eqn:E; try reflexivity;
    rewrite <- E; apply digits_only_uint.
Qed.

Lemma strchr_after_digits (a b : string) :
  digits_only a = true ->
  strchr (a ++ b) "-" = strchr b "-".
Proof.
  induction a as [|c r IH]; [reflexivity|].
  simpl. intros H. apply andb_true_iff in H as [Hc Hr].
  rewrite IH by exact Hr.
  destruct c as [[] [] [] [] [] [] [] []]; try discriminate Hc; reflexivity.
Qed.

Lemma get_hub_info_filled (d : usb_device) (info : hub_info) :
  hub_descriptor_read d ->
  location (snd (get_hub_info d info)) =
    (dec (bus_number d) ++ location_hops 0 (port_numbers d))%string /\
  vendor (snd (get_hub_info d info)) =
    (hex4 (idVendor d) ++ ":" ++ hex4 (idProduct d))%string /\
  dev (snd (get_hub_info d info)) = Some d.
Proof.
  intros (Hrc & Hcls & Hopen & Hlen). unfold get_hub_info.
  rewrite Hrc, Hcls, Hopen. simpl.
  destruct (Z.leb_spec minlen (hub_desc_len d)); [|lia].
  repeat split; reflexivity.
Qed.

(** X2.  For a hub whose descriptor is read, on a bus numbered from 0 up,
    the part of the location from the first ['-'] on (what the correlation
    pass compares) is the rendering of the port chain alone; a hub with an
    empty port chain has no such part. *)
Theorem location_port_path (d : usb_device) (info : hub_info) :
  hub_descriptor_read d ->
  0 <= bus_number d ->
  strchr (location (snd (get_hub_info d info))) "-" =
    match port_numbers d with
    | [] => None
    | _ :: _ => Some (location_hops 0 (port_numbers d))
    end.
Proof.
  intros Hread Hbus.
  destruct (get_hub_info_filled d info Hread) as (-> & _ & _).
  rewrite strchr_after_digits by (apply digits_only_dec, Hbus).
  destruct (port_numbers d) as [|p rest]; reflexivity.
Qed.

Lemma location_port_path_witness :
  strchr (location (snd (get_hub_info
                           (sample_hub 0x0210 0x0451 0x8142 2 [1; 3])
                           hub_info_zero))) "-" =
    Some (location_hops 0 [1; 3]).
Proof.
  apply (location_port_path (sample_hub 0x0210 0x0451 0x8142 2 [1; 3])
           hub_info_zero).
  - unfold hub_descriptor_read; vm_compute; intuition congruence.
  - vm_compute. discriminate.
Defined.

Lemma strncasecmp_cons (c1 c2 : ascii) (r1 r2 : string) (n : nat) :
  tolower c1 <> NUL ->
  strncasecmp (String c1 r1) (String c2 r2) (S n) = 0 <->
  tolower c1 = tolower c2 /\ strncasecmp r1 r2 n = 0.
Proof.
  intros Hnz. cbn [strncasecmp head_char tail_str].
  destruct (Ascii.eqb_spec (tolower c1) (tolower c2)) as [He|Hne]; simpl.
  - destruct (Ascii.eqb_spec (tolower c1) NUL); [contradiction|].
    split; [auto|]. intros [_ H]. exact H.
  - split; [intros H; destruct (code_diff _ _ Hne H)|].
    intros [H _]. contradiction.
Qed.

Lemma hex_digit_folded (a b : Z) :
  0 <= a < 16 -> 0 <= b < 16 ->
  tolower (hex_digit a) <> NUL /\
  (tolower (hex_digit a) = tolower (hex_digit b) <-> a = b).
Proof.
  intros Ha Hb.
  assert (Hca : a = 0 \/ a = 1 \/ a = 2 \/ a = 3 \/ a = 4 \/ a = 5 \/ a = 6 \/
    a = 7 \/ a = 8 \/ a = 9 \/ a = 10 \/ a = 11 \/ a = 12 \/ a = 13 \/
    a = 14 \/ a = 15) by lia.
  assert (Hcb : b = 0 \/ b = 1 \/ b = 2 \/ b = 3 \/ b = 4 \/ b = 5 \/ b = 6 \/
    b = 7 \/ b = 8 \/ b = 9 \/ b = 10 \/ b = 11 \/ b = 12 \/ b = 13 \/
    b = 14 \/ b = 15) by lia.
  clear Ha Hb.
  repeat (destruct Hca as [->|Hca]); try subst a;
    (split; [vm_compute; discriminate|]);
    repeat (destruct Hcb as [->|Hcb]); try subst b;
    vm_compute; split; intros E; congruence.
Qed.

Lemma nibbles_determine (v w : Z) :
  0 <= v < 65536 -> 0 <= w < 65536 ->
  Z.shiftr v 12 mod 16 = Z.shiftr w 12 mod 16 ->
  Z.shiftr v 8 mod 16 = Z.shiftr w 8 mod 16 ->
  Z.shiftr v 4 mod 16 = Z.shiftr w 4 mod 16 ->
  v mod 16 = w mod 16 ->
  v = w.
Proof.
  intros Hv Hw. rewrite !Z.shiftr_div_pow2 by lia.
  change (2 ^ 12) with 4096. change (2 ^ 8) with 256. change (2 ^ 4) with 16.
  intros H3 H2 H1 H0. Z.to_euclidean_division_equations. lia.
Qed.

(** X3.  For two hubs whose descriptors are read, with 16-bit vendor ids,
    the vendor test of the correlation pass (the first four characters of
    the vendor strings, letter case ignored) succeeds exactly when the two
    have the same [idVendor]; the product id plays no part. *)
Theorem vendor_test_is_idVendor
    (d1 d2 : usb_device) (info1 info2 : hub_info) :
  hub_descriptor_read d1 -> hub_descriptor_read d2 ->
  0 <= idVendor d1 < 65536 -> 0 <= idVendor d2 < 65536 ->
  strncasecmp (vendor (snd (get_hub_info d1 info1)))
              (vendor (snd (get_hub_info d2 info2))) 4 = 0 <->
  idVendor d1 = idVendor d2.
Proof.
  intros Hr1 Hr2 Hv1 Hv2.
  destruct (get_hub_info_filled d1 info1 Hr1) as (_ & -> & _).
  destruct (get_hub_info_filled d2 info2 Hr2) as (_ & -> & _).
  unfold hex4 at 1 3. cbn [String.append].
  assert (Hn : forall k v, 0 <= v -> 0 <= Z.shiftr v k mod 16 < 16).
  { intros k v _. apply Z.mod_pos_bound. lia. }
  assert (Hm : forall v, 0 <= v mod 16 < 16).
  { intros v. apply Z.mod_pos_bound. lia. }
  pose proof (hex_digit_folded _ _ (Hn 12 _ (proj1 Hv1)) (Hn 12 _ (proj1 Hv2)))
    as [Z3 E3].
  pose proof (hex_digit_folded _ _ (Hn 8 _ (proj1 Hv1)) (Hn 8 _ (proj1 Hv2)))
    as [Z2 E2].
  pose proof (hex_digit_folded _ _ (Hn 4 _ (proj1 Hv1)) (Hn 4 _ (proj1 Hv2)))
    as [Z1 E1].
  pose proof (hex_digit_folded _ _ (Hm (idVendor d1)) (Hm (idVendor d2)))
    as [Z0 E0].
  rewrite !strncasecmp_cons by assumption.
  rewrite E3, E2, E1, E0. cbn [strncasecmp].
  split.
  - intros (H3 & H2 & H1 & H0 & _). apply nibbles_determine; assumption.
  - intros ->. repeat split; reflexivity.
Qed.

Lemma vendor_test_is_idVendor_witness :
  strncasecmp (vendor (snd (get_hub_info usb2_persona hub_info_zero)))
              (vendor (snd (get_hub_info usb3_persona hub_info_zero))) 4 = 0
  <-> idVendor usb2_persona = idVendor usb3_persona.
Proof.
  apply (vendor_test_is_idVendor usb2_persona usb3_persona
           hub_info_zero hub_info_zero).
  - unfold hub_descriptor_read; vm_compute; intuition congruence.
  - unfold hub_descriptor_read; vm_compute; intuition congruence.
  - vm_compute. split; [discriminate|reflexivity].
  - vm_compute. split; [discriminate|reflexivity].
Defined.

(** ** get_port_status *)

Lemma land_low16 (x m : Z) :
  0 <= m < 65536 -> Z.land x m = Z.land (x mod 65536) m.
Proof.
  intros Hm.
  assert (Hmm : Z.land (Z.ones 16) m = m).
  { rewrite Z.land_comm, Z.land_ones by lia.
    apply Z.mod_small. change (2 ^ 16) with 65536. lia. }
  rewrite <- Hmm at 1. rewrite Z.land_assoc, Z.land_ones by lia.
  reflexivity.
Qed.

(** X4.  When the transfer succeeds, every test of the returned value
    against a mask of at most 16 bits sees the bits of the status word, also
    when the value has come back negative. *)
Theorem get_port_status_mask (d : usb_device) (port rc w m : Z) :
  port_xfer d port = (rc, w) ->
  0 <= rc ->
  0 <= w < 65536 ->
  0 <= m < 65536 ->
  Z.land (get_port_status (Some d) port) m = Z.land w m.
Proof.
  intros Hx Hrc Hw Hm. unfold get_port_status. rewrite Hx.
  destruct (Z.ltb_spec rc 0); [lia|].
  rewrite (land_low16 (int16_of_word w)) by exact Hm.
  rewrite (land_low16 w) by exact Hm. f_equal.
  unfold int16_of_word. rewrite (Z.mod_small w) by lia.
  destruct (Z.ltb_spec w 32768).
  - apply Z.mod_small. lia.
  - replace (w - 65536) with (w + (-1) * 65536) by lia.
    rewrite Z.mod_add by lia. apply Z.mod_small. lia.
Qed.

Lemma get_port_status_mask_witness :
  let d := with_port_xfer (fun _ => (4, 0x8100)) usb2_persona in
  Z.land (get_port_status (Some d) 1) USB_PORT_STAT_POWER =
  Z.land 0x8100 USB_PORT_STAT_POWER.
Proof.
  intro d.
  apply (get_port_status_mask d 1 4 0x8100 USB_PORT_STAT_POWER);
    [reflexivity | lia | lia | vm_compute; split; [discriminate|reflexivity]].
Defined.

(** ** print_port_status *)

Lemma print_ports_all (d : usb_device) (bcd portmask : Z) (n : nat) :
  forall first,
  (forall q, first <= q < first + Z.of_nat n ->
             port_skipped portmask q = false ->
             get_port_status (Some d) q <> -1) ->
  print_ports d bcd portmask n first =
  map (port_line d bcd)
    (List.filter (fun q => negb (port_skipped portmask q))
       (port_range first n)).
Proof.
  induction n as [|n IH]; intros first Hok; [reflexivity|].
  cbn [print_ports port_range List.filter].
  destruct (port_skipped portmask first) eqn:Hskip; cbn [negb].
  - apply IH. intros q Hq. apply Hok. lia.
  - destruct (Z.eqb_spec (get_port_status (Some d) first) (-1)) as [E|_].
    + destruct (Hok first); [lia | exact Hskip | exact E].
    + cbn [map]. unfold port_line at 2. f_equal.
      apply IH. intros q Hq. apply Hok. lia.
Qed.

Lemma in_say_iff (x : string) (c : bool) (s : string) :
  In x (say c s) <-> c = true /\ x = s.
Proof.
  destruct c; simpl; intuition congruence.
Qed.

(** X6.  The display shows [" power"] for a port exactly when the power
    bit that [main] tests for the hub's generation is set in the status. *)
Theorem power_label_iff (bcd ps : Z) (descr : string) :
  In " power" (port_status_labels bcd ps descr) <->
  has_bits ps (power_mask bcd) = true.
Proof.
  unfold port_status_labels, power_mask.
  destruct (bcd <? USB_SS_BCD).
  - destruct (Z.eqb_spec ps 0) as [->|Hne].
    + vm_compute. intuition congruence.
    + rewrite !in_app_iff, !in_say_iff. simpl.
      intuition (try discriminate; auto).
  - destruct (Z.eqb_spec ps USB_SS_PORT_LS_SS_DISABLED) as [->|Hne].
    + vm_compute. intuition congruence.
    + rewrite !in_app_iff, !in_say_iff. simpl.
      intuition (try discriminate; auto).
Qed.

Lemma link_state_cases (ps : Z) :
  exists k, 0 <= k < 16 /\ bit_field ps 5 4 = k /\
            Z.land ps USB_PORT_STAT_LINK_STATE = 32 * k.
Proof.
  exists (bit_field ps 5 4). unfold bit_field.
  split; [|split; [reflexivity|]].
  - rewrite Z.land_ones by lia. apply Z.mod_pos_bound. lia.
  - rewrite Z.mul_comm. change 32 with (2 ^ 5).
    rewrite <- Z.shiftl_mul_pow2 by lia.
    change USB_PORT_STAT_LINK_STATE with (Z.shiftl (Z.ones 4) 5).
    apply Z.bits_inj'. intros n Hn. rewrite Z.land_spec.
    destruct (Z.lt_ge_cases n 5).
    + rewrite !Z.shiftl_spec_low by lia. apply andb_false_r.
    + rewrite !Z.shiftl_spec_high by lia.
      rewrite Z.land_spec, Z.shiftr_spec by lia.
      replace (n - 5 + 5) with n by lia. reflexivity.
Qed.

(** X7.  From USB 3.0 on, for a status other than the one shown as
    [" off"], the line names the link state of bits 5..8 when it is one of
    the twelve defined values, and names no link state for the other
    four. *)
Theorem link_state_label (bcd ps : Z) (descr : string) :
  USB_SS_BCD <= bcd ->
  ps <> USB_SS_PORT_LS_SS_DISABLED ->
  List.filter is_link_state_label (port_status_labels bcd ps descr) =
  option_list (link_state_labels !! Z.to_nat (bit_field ps 5 4)).
Proof.
  intros Hbcd Hps. unfold port_status_labels.
  destruct (Z.ltb_spec bcd USB_SS_BCD); [lia|].
  destruct (Z.eqb_spec ps USB_SS_PORT_LS_SS_DISABLED); [contradiction|].
  destruct (link_state_cases ps) as (k & Hk & -> & ->).
  generalize (has_bits ps USB_SS_PORT_STAT_POWER).
  generalize (Z.land ps USB_SS_PORT_STAT_SPEED =? USB_PORT_STAT_SPEED_5GBPS).
  generalize (has_bits ps USB_PORT_STAT_RESET).
  generalize (has_bits ps USB_PORT_STAT_OVERCURRENT).
  generalize (has_bits ps USB_PORT_STAT_ENABLE).
  generalize (has_bits ps USB_PORT_STAT_CONNECTION).
  intros b1 b2 b3 b4 b5 b6.
  assert (Hcases : k = 0 \/ k = 1 \/ k = 2 \/ k = 3 \/ k = 4 \/ k = 5 \/
    k = 6 \/ k = 7 \/ k = 8 \/ k = 9 \/ k = 10 \/ k = 11 \/ k = 12 \/
    k = 13 \/ k = 14 \/ k = 15) by lia.
  clear Hk.
  repeat (destruct Hcases as [->|Hcases]); try subst k;
    destruct b1, b2, b3, b4, b5, b6; vm_compute; reflexivity.
Qed.

Lemma link_state_label_witness :
  List.filter is_link_state_label (port_status_labels 0x0300 0x02a0 "") =
  option_list (link_state_labels !! Z.to_nat (bit_field 0x02a0 5 4)).
Proof.
  apply (link_state_label 0x0300 0x02a0 "");
    vm_compute; discriminate.
Defined.

(** ** The registry *)

Lemma get_hub_info_ppps_dev (d : usb_device) :
  ppps (snd (get_hub_info d hub_info_zero)) = true ->
  dev (snd (get_hub_info d hub_info_zero)) = Some d.
Proof.
  unfold get_hub_info.
  destruct (negb (dev_desc_rc d =? 0)); simpl; [discriminate|].
  destruct (negb (bDeviceClass d =? LIBUSB_CLASS_HUB)); simpl;
    [discriminate|].
  destruct (dev_open_rc d =? 0); simpl; [|discriminate].
  destruct (minlen <=? hub_desc_len d); simpl; [|discriminate].
  reflexivity.
Qed.

Lemma scan_step_devs (loc ven : string) (hs : list hub_info) (ok : bool)
    (d : usb_device) :
  map dev (fst (scan_step loc ven (hs, ok) d)) =
  if insertable d && (List.length hs <? MAX_HUBS)%nat
  then (map dev hs ++ [Some d])%list
  else map dev hs.
Proof.
  unfold scan_step, insertable, is_candidate.
  destruct ((dev_desc_rc d =? 0) && negb (bDeviceClass d =? LIBUSB_CLASS_HUB));
    [reflexivity|].
  pose proof (get_hub_info_ppps_dev d) as Hdev.
  destruct (get_hub_info d hub_info_zero) as [rc info]. simpl in *.
  destruct (ppps info); [|reflexivity].
  destruct (List.length hs <? MAX_HUBS)%nat; [|reflexivity].
  simpl. rewrite map_app. simpl. rewrite Hdev by reflexivity. reflexivity.
Qed.

Lemma scan_devs (loc ven : string) (devs : list usb_device) :
  forall hs ok,
  map dev (fst (scan loc ven (hs, ok) devs)) =
  (map dev hs ++
   take (MAX_HUBS - List.length hs)
     (map Some (List.filter insertable devs)))%list.
Proof.
  induction devs as [|d rest IH]; intros hs ok.
  - simpl. rewrite take_nil, app_nil_r. reflexivity.
  - cbn [scan List.filter].
    pose proof (scan_step_devs loc ven hs ok d) as Hstep.
    destruct (scan_step loc ven (hs, ok) d) as [hs' ok'].
    rewrite IH. simpl in Hstep. rewrite Hstep.
    assert (Hlen : List.length hs' = List.length (map dev hs'))
      by (rewrite length_map; reflexivity).
    rewrite Hstep in Hlen.
    destruct (insertable d); simpl in *.
    + destruct (Nat.ltb_spec (List.length hs) MAX_HUBS) as [Hlt|Hge].
      * rewrite length_app, length_map in Hlen. simpl in Hlen.
        rewrite <- app_assoc. simpl. f_equal.
        replace (MAX_HUBS - List.length hs)%nat
          with (S (MAX_HUBS - List.length hs'))%nat by lia.
        reflexivity.
      * rewrite length_map in Hlen. rewrite Hlen.
        replace (MAX_HUBS - List.length hs)%nat with O by lia.
        reflexivity.
    + rewrite length_map in Hlen. rewrite Hlen. reflexivity.
Qed.

Lemma promoted_map_dev (l l' : list hub_info) :
  Forall2 promotes l l' -> map dev l' = map dev l.
Proof.
  induction 1 as [|h h' r r' Hh _ IH]; [reflexivity|].
  simpl. rewrite IH. destruct Hh as [->| ->]; reflexivity.
Qed.

Lemma usb_find_hubs_promoted (loc ven : string) (exact : bool)
    (devs : list usb_device) :
  Forall2 promotes (fst (scan loc ven ([], true) devs))
    (hubs (usb_find_hubs loc ven exact devs)).
Proof.
  unfold usb_find_hubs.
  destruct (scan loc ven ([], true) devs) as [hs0 ok].
  pose proof (correlate_loop_promoted exact (List.length hs0) 0 (hs0, 0))
    as Hprom.
  fold (correlate exact hs0) in Hprom.
  destruct (correlate exact hs0) as [hs1 cnt]. exact Hprom.
Qed.

Lemma map_dev_registry (loc ven : string) (exact : bool)
    (devs : list usb_device) :
  map dev (hubs (usb_find_hubs loc ven exact devs)) =
  take MAX_HUBS (map Some (List.filter insertable devs)).
Proof.
  rewrite (promoted_map_dev _ _ (usb_find_hubs_promoted loc ven exact devs)).
  rewrite (scan_devs loc ven devs [] true). reflexivity.
Qed.

(** X8.  The registry holds, in enumeration order, the devices that pass
    the class test and have [ppps] set, up to the first [MAX_HUBS] of
    them; which ones does not depend on the filters or on [exact]. *)
Theorem registry_devices (loc ven : string) (exact : bool)
    (devs : list usb_device) :
  map dev (hubs (usb_find_hubs loc ven exact devs)) =
  take MAX_HUBS (map Some (List.filter insertable devs)).
Proof.
  apply map_dev_registry.
Qed.

(** X9.  Correlation never clears an [actionable] flag that filtering
    set, and changes no other field of any record. *)
Theorem correlation_only_promotes (loc ven : string) (exact : bool)
    (devs : list usb_device) (i : nat) (h : hub_info) :
  fst (scan loc ven ([], true) devs) !! i = Some h ->
  exists h',
    hubs (usb_find_hubs loc ven exact devs) !! i = Some h' /\
    (h' = h \/ h' = set_actionable true h) /\
    (actionable h = true -> h' = h).
Proof.
  intros Hi.
  destruct (Forall2_lookup_l _ _ _ _ _
              (usb_find_hubs_promoted loc ven exact devs) Hi)
    as (h' & Hi' & Hrel).
  exists h'. split; [exact Hi'|]. split; [exact Hrel|].
  intros Ha. destruct Hrel as [->| ->]; [reflexivity|].
  destruct h; simpl in *. rewrite Ha. reflexivity.
Qed.

Lemma correlation_only_promotes_witness :
  let h := set_actionable false
             (snd (get_hub_info usb2_persona hub_info_zero)) in
  exists h',
    hubs (usb_find_hubs "2-1" "" false [usb2_persona; usb3_persona])
      !! 0%nat = Some h' /\
    (h' = h \/ h' = set_actionable true h) /\
    (actionable h = true -> h' = h).
Proof.
  intro h.
  apply (correlation_only_promotes "2-1" "" false
           [usb2_persona; usb3_persona] 0 h).
  reflexivity.
Defined.

(** ** The count and the actionable records *)

Lemma count_below_ss_le_actionable (l : list hub_info) :
  count_actionable_below_ss l <= count_actionable l.
Proof.
  induction l as [|h rest IH]; simpl; [lia|].
  destruct (actionable h), (below_ss h); simpl; lia.
Qed.

Lemma count_actionable_le_length (l : list hub_info) :
  0 <= count_actionable l <= Z.of_nat (List.length l).
Proof.
  induction l as [|h rest IH]; simpl List.length; simpl count_actionable;
    [lia|].
  destruct (actionable h); lia.
Qed.

Lemma count_actionable_pos (l : list hub_info) :
  0 < count_actionable l -> exists h, In h l /\ actionable h = true.
Proof.
  induction l as [|h rest IH]; simpl; [lia|].
  destruct (actionable h) eqn:Ha.
  - intros _. exists h. auto.
  - intros Hpos. destruct IH as (x & Hx & Hax); [lia|].
    exists x. auto.
Qed.

Lemma ret_cases (loc ven : string) (exact : bool) (devs : list usb_device) :
  let r := usb_find_hubs loc ven exact devs in
  0 <= hub_phys_count r /\
  (ret r = LIBUSB_ERROR_ACCESS \/ ret r = hub_phys_count r).
Proof.
  unfold usb_find_hubs.
  destruct (scan loc ven ([], true) devs) as [hs0 ok].
  pose proof (correlate_loop_count exact (List.length hs0) 0 (hs0, 0))
    as Hcnt.
  fold (correlate exact hs0) in Hcnt.
  destruct (correlate exact hs0) as [hs1 cnt]. simpl in *.
  split; [exact Hcnt|].
  destruct (negb ok && (cnt =? 0)); auto.
Qed.

Lemma hub_phys_count_le_actionable (loc ven : string) (exact : bool)
    (devs : list usb_device) :
  let r := usb_find_hubs loc ven exact devs in
  hub_phys_count r <= count_actionable (hubs r).
Proof.
  destruct exact.
  - unfold usb_find_hubs.
    destruct (scan loc ven ([], true) devs) as [hs0 ok].
    rewrite correlate_exact. simpl. lia.
  - pose proof (hub_phys_count_le loc ven devs) as Hle. simpl in *.
    pose proof (count_below_ss_le_actionable
                  (hubs (usb_find_hubs loc ven false devs))).
    lia.
Qed.

(** X10.  The count returned is bounded by the number of actionable
    records, that by [hub_count], and that by [MAX_HUBS]. *)
Theorem hub_phys_count_bounds (loc ven : string) (exact : bool)
    (devs : list usb_device) :
  let r := usb_find_hubs loc ven exact devs in
  0 <= hub_phys_count r <= count_actionable (hubs r) /\
  count_actionable (hubs r) <= Z.of_nat (hub_count r) /\
  (hub_count r <= MAX_HUBS)%nat.
Proof.
  intro r. split; [split|split].
  - apply (ret_cases loc ven exact devs).
  - apply hub_phys_count_le_actionable.
  - apply count_actionable_le_length.
  - unfold hub_count.
    assert (H : List.length (hubs r) = List.length (map dev (hubs r)))
      by (rewrite length_map; reflexivity).
    rewrite H. unfold r. rewrite map_dev_registry, length_take. lia.
Qed.

(** X11.  A return value above 0, the only case in which [main] goes on,
    means that at least one record of the registry is actionable. *)
Theorem positive_return_has_actionable (loc ven : string) (exact : bool)
    (devs : list usb_device) :
  0 < ret (usb_find_hubs loc ven exact devs) ->
  exists h, In h (hubs (usb_find_hubs loc ven exact devs)) /\
            actionable h = true.
Proof.
  intros Hpos. apply count_actionable_pos.
  pose proof (hub_phys_count_le_actionable loc ven exact devs) as Hle.
  destruct (ret_cases loc ven exact devs) as (_ & Hret).
  simpl in *. unfold LIBUSB_ERROR_ACCESS in Hret.
  destruct Hret as [E|E]; lia.
Qed.

Lemma positive_return_has_actionable_witness :
  exists h, In h (hubs (usb_find_hubs "" "" false
                          [usb2_persona; usb3_persona])) /\
            actionable h = true.
Proof.
  apply (positive_return_has_actionable "" "" false
           [usb2_persona; usb3_persona]).
  vm_compute. reflexivity.
Defined.

(** ** The search for the dual *)

Lemma find_dual_first_index (hi : hub_info) (i : nat)
    (rest : list hub_info) :
  forall j m,
  find_dual hi i j rest m =
  match first_index (fun hj => dual_candidate hi hj && path_match hi hj)
          i j rest with
  | Some k => Some k
  | None =>
      match m with
      | Some _ => m
      | None =>
          first_index
            (fun hj => dual_candidate hi hj && negb (actionable hj))
            i j rest
      end
  end.
Proof.
  induction rest as [|hj rest' IH]; intros j m.
  - simpl. destruct m; reflexivity.
  - cbn [find_dual first_index]. rewrite !IH. clear IH.
    set (A := first_index
                (fun hj => dual_candidate hi hj && path_match hi hj)
                i (S j) rest').
    set (B := first_index
                (fun hj => dual_candidate hi hj && negb (actionable hj))
                i (S j) rest').
    clearbody A B. unfold dual_candidate, path_match.
    destruct (Nat.eqb i j); cbn [negb andb]; [reflexivity|].
    destruct (Bool.eqb (below_ss hi) (below_ss hj)); cbn [negb andb];
      [reflexivity|].
    destruct (strncasecmp (vendor hi) (vendor hj) 4 =? 0); cbn [negb andb];
      [|reflexivity].
    destruct (strchr (location hi) "-") as [p1|];
      destruct (strchr (location hj) "-") as [p2|];
      try destruct (strcasecmp p1 p2 =? 0);
      destruct m as [k|]; destruct (actionable hj); cbn [negb];
      try reflexivity; destruct A; reflexivity.
Qed.

(** X12.  The dual chosen for hub [i] is the first other record of the
    opposite generation and the same vendor whose port path matches, when
    there is one; otherwise the first such record that is not yet
    actionable; otherwise none. *)
Theorem find_dual_choice (hi : hub_info) (i : nat) (hs : list hub_info) :
  find_dual hi i 0 hs None =
  match first_index (fun hj => dual_candidate hi hj && path_match hi hj)
          i 0 hs with
  | Some k => Some k
  | None =>
      first_index (fun hj => dual_candidate hi hj && negb (actionable hj))
        i 0 hs
  end.
Proof.
  apply find_dual_first_index.
Qed.

Lemma first_index_sound (test : hub_info -> bool) (i : nat)
    (rest : list hub_info) :
  forall j k,
  first_index test i j rest = Some k ->
  k <> i /\ (j <= k)%nat /\
  exists hk, rest !! (k - j)%nat = Some hk /\ test hk = true.
Proof.
  induction rest as [|hj rest' IH]; intros j k; [discriminate|].
  cbn [first_index].
  destruct (Nat.eqb_spec i j) as [E|E]; cbn [negb andb].
  - intros H. destruct (IH _ _ H) as (Hk & Hj & hk & Hl & Ht).
    split; [exact Hk|]. split; [lia|]. exists hk. split; [|exact Ht].
    replace (k - j)%nat with (S (k - S j)) by lia. exact Hl.
  - destruct (test hj) eqn:Ht.
    + intros [= <-]. split; [congruence|]. split; [lia|].
      exists hj. rewrite Nat.sub_diag. auto.
    + intros H. destruct (IH _ _ H) as (Hk & Hj & hk & Hl & Ht').
      split; [exact Hk|]. split; [lia|]. exists hk. split; [|exact Ht'].
      replace (k - j)%nat with (S (k - S j)) by lia. exact Hl.
Qed.

Lemma find_dual_sound (hi : hub_info) (i : nat) (hs : list hub_info)
    (m : nat) :
  find_dual hi i 0 hs None = Some m ->
  m <> i /\ exists hm, hs !! m = Some hm /\ dual_candidate hi hm = true.
Proof.
  rewrite find_dual_first_index.
  destruct (first_index _ i 0 hs) as [k|] eqn:E1.
  - intros [= <-]. apply first_index_sound in E1
      as (Hk & _ & hk & Hl & Ht).
    rewrite Nat.sub_0_r in Hl. apply andb_true_iff in Ht as [Ht _].
    split; [exact Hk|]. exists hk. auto.
  - intros E2. apply first_index_sound in E2 as (Hk & _ & hk & Hl & Ht).
    rewrite Nat.sub_0_r in Hl. apply andb_true_iff in Ht as [Ht _].
    split; [exact Hk|]. exists hk. auto.
Qed.

Lemma set_actionable_same (h : hub_info) :
  actionable h = true -> set_actionable true h = h.
Proof.
  destruct h; simpl. intros ->. reflexivity.
Qed.

(** X13.  One iteration of the correlation loop changes a record only by
    promoting it: the record is another one than hub [i], was not
    actionable, and is of the opposite generation and the same vendor as
    hub [i], which is actionable; and [exact] is off. *)
Theorem promotion_target (exact : bool) (hs : list hub_info) (c : Z)
    (i k : nat) (hi h h' : hub_info) :
  hs !! i = Some hi ->
  hs !! k = Some h ->
  fst (correlate_step exact i (hs, c)) !! k = Some h' ->
  h' <> h ->
  exact = false /\ k <> i /\ actionable hi = true /\
  actionable h = false /\ dual_candidate hi h = true /\
  h' = set_actionable true h.
Proof.
  intros Hi Hk Hk' Hne. unfold correlate_step in Hk'. rewrite Hi in Hk'.
  destruct (actionable hi) eqn:Hai; cbn [negb] in Hk';
    [|simpl in Hk'; congruence].
  destruct exact; [simpl in Hk'; congruence|].
  destruct (find_dual hi i 0 hs None) as [m|] eqn:Hm;
    [|simpl in Hk'; congruence].
  cbn [fst] in Hk'.
  destruct (find_dual_sound hi i hs m Hm) as (Hmi & hm & Hlm & Hcand).
  destruct (Nat.eq_dec m k) as [->|Hmk].
  - rewrite list_lookup_alter_eq, Hk in Hk'. simpl in Hk'.
    injection Hk' as <-.
    assert (hm = h) as -> by congruence.
    repeat split; auto.
    destruct (actionable h) eqn:Ha; [|reflexivity].
    destruct Hne. apply set_actionable_same, Ha.
  - rewrite list_lookup_alter_ne in Hk' by exact Hmk. congruence.
Qed.

Lemma promotion_target_witness :
  let hs := fst (scan "2-1" "" ([], true) [usb2_persona; usb3_persona]) in
  let h3 := set_actionable true
              (snd (get_hub_info usb3_persona hub_info_zero)) in
  let h2 := snd (get_hub_info usb2_persona hub_info_zero) in
  false = false /\ 0%nat <> 1%nat /\ actionable h3 = true /\
  actionable h2 = false /\ dual_candidate h3 h2 = true /\
  set_actionable true h2 = set_actionable true h2.
Proof.
  intros hs h3 h2.
  apply (promotion_target false hs 0 1 0 h3 h2 (set_actionable true h2));
    try reflexivity.
  vm_compute. discriminate.
Defined.

(** ** The count without filters *)

Lemma correlate_step_lower (hs0 : list hub_info) (i : nat)
    (st : corr_state) :
  Forall2 promotes hs0 (fst st) ->
  count_actionable_below_ss (take i hs0) <= snd st ->
  count_actionable_below_ss (take (S i) hs0) <=
  snd (correlate_step false i st).
Proof.
  intros Hprom Hinv.
  destruct (hs0 !! i) as [h0|] eqn:Hi0.
  - destruct (Forall2_lookup_l _ _ _ _ _ Hprom Hi0) as (h & Hi & Hrel).
    rewrite (take_S_r _ _ _ Hi0), count_below_ss_app. simpl.
    apply promotes_fields in Hrel as (_ & Hbcd & Hact).
    destruct st as [hs c]. simpl in *. unfold correlate_step. rewrite Hi.
    unfold below_ss in *. rewrite <- Hbcd.
    destruct (actionable h0); simpl.
    + rewrite Hact by reflexivity. simpl. rewrite orb_false_r.
      destruct (bcd_usb h <? USB_SS_BCD);
        destruct (find_dual h i 0 hs None); simpl; lia.
    + pose proof (correlate_step_count false i (hs, c)) as Hmono.
      unfold correlate_step in Hmono. rewrite Hi in Hmono.
      simpl in Hmono. unfold below_ss in Hmono. lia.
  - apply lookup_ge_None in Hi0. rewrite take_ge by lia.
    rewrite take_ge in Hinv by lia.
    pose proof (correlate_step_count false i st). lia.
Qed.

Lemma correlate_loop_lower (hs0 : list hub_info) (n : nat) :
  forall i st,
  Forall2 promotes hs0 (fst st) ->
  count_actionable_below_ss (take i hs0) <= snd st ->
  count_actionable_below_ss (take (i + n) hs0) <=
  snd (correlate_loop false n i st).
Proof.
  induction n as [|n IH]; intros i st Hprom Hinv.
  - simpl. rewrite Nat.add_0_r. exact Hinv.
  - cbn [correlate_loop]. replace (i + S n)%nat with (S i + n)%nat by lia.
    apply IH.
    + eapply promoted_trans; [exact Hprom|apply correlate_step_promoted].
    + apply correlate_step_lower; assumption.
Qed.

(** With [exact] off the count is at least the number of records below
    USB 3.0 that filtering left actionable. *)
Lemma hub_phys_count_ge (hs0 : list hub_info) :
  count_actionable_below_ss hs0 <= snd (correlate false hs0).
Proof.
  pose proof (correlate_loop_lower hs0 (List.length hs0) 0 (hs0, 0)
                (promoted_refl hs0)) as H.
  simpl in H. rewrite take_ge in H by lia. apply H. lia.
Qed.

Lemma count_below_ss_all_actionable (l : list hub_info) :
  Forall (fun h => actionable h = true) l ->
  count_actionable_below_ss l = Z.of_nat (List.length (List.filter below_ss l)).
Proof.
  induction 1 as [|h rest Hh _ IH]; [reflexivity|].
  cbn [count_actionable_below_ss List.filter]. rewrite Hh, IH.
  destruct (below_ss h); simpl List.length; simpl andb; lia.
Qed.

Lemma promoted_all_actionable (l l' : list hub_info) :
  Forall2 promotes l l' ->
  Forall (fun h => actionable h = true) l ->
  l' = l.
Proof.
  induction 1 as [|h h' r r' Hh _ IH]; intros Hall; [reflexivity|].
  inversion Hall as [|? ? Ha Hr]; subst.
  rewrite IH by exact Hr.
  destruct Hh as [->| ->]; [reflexivity|].
  rewrite set_actionable_same by exact Ha. reflexivity.
Qed.

(** X14.  Without a location and a vendor filter and with [exact] off,
    every record of the registry is actionable, correlation changes
    nothing, and the count is the number of records below USB 3.0. *)
Theorem unfiltered_count (devs : list usb_device) :
  let r := usb_find_hubs "" "" false devs in
  Forall (fun h => actionable h = true) (hubs r) /\
  hubs r = fst (scan "" "" ([], true) devs) /\
  hub_phys_count r = Z.of_nat (List.length (List.filter below_ss (hubs r))).
Proof.
  intro r.
  pose proof (scan_records "" "" devs ([], true) (List.Forall_nil _)) as Hrec.
  assert (Hall : Forall (fun h => actionable h = true)
                   (fst (scan "" "" ([], true) devs))).
  { eapply Forall_impl; [exact Hrec|].
    intros h (_ & -> & _). reflexivity. }
  pose proof (usb_find_hubs_promoted "" "" false devs) as Hprom.
  apply promoted_all_actionable in Hprom; [|exact Hall]. fold r in Hprom.
  rewrite Hprom. split; [exact Hall|]. split; [reflexivity|].
  rewrite <- count_below_ss_all_actionable by exact Hall.
  pose proof (hub_phys_count_le "" "" devs) as Hle. fold r in Hle.
  simpl in Hle. rewrite Hprom in Hle.
  assert (Hge : count_actionable_below_ss (fst (scan "" "" ([], true) devs))
                <= hub_phys_count r).
  { pose proof (hub_phys_count_ge (fst (scan "" "" ([], true) devs))) as H.
    unfold r, usb_find_hubs.
    destruct (scan "" "" ([], true) devs) as [hs0 ok]. simpl in *.
    destruct (correlate false hs0) as [hs1 cnt]. exact H. }
  lia.
Qed.

(** ** rtrim *)

Lemma rtrim_from_spaces (ws : list ascii) :
  forall p zs,
  Forall (fun c => isspace c = true) ws ->
  (forall c, last p = Some c -> isspace c = false) ->
  rtrim_from (List.length (p ++ ws)) (p ++ ws ++ zs) =
  (p ++ replicate (List.length ws) NUL ++ zs)%list.
Proof.
  induction ws as [|c ws' IH] using rev_ind; intros p zs Hws Hp.
  - rewrite app_nil_r. simpl.
    destruct p as [|a p'] using rev_ind; [reflexivity|].
    rewrite length_app. simpl. rewrite Nat.add_1_r. cbn [rtrim_from].
    rewrite <- app_assoc. simpl. rewrite list_lookup_middle by reflexivity.
    simpl. rewrite (Hp a) by apply last_snoc. reflexivity.
  - apply Forall_app in Hws as [Hws' Hc].
    inversion Hc as [|? ? Hcs _]; subst.
    rewrite app_assoc, length_app. simpl. rewrite Nat.add_1_r.
    cbn [rtrim_from]. rewrite <- !app_assoc. simpl.
    rewrite (app_assoc p ws' (c :: zs)).
    rewrite list_lookup_middle by reflexivity. simpl. rewrite Hcs.
    replace (List.length (p ++ ws')) with (List.length (p ++ ws') + 0)%nat
      at 2 by lia.
    rewrite insert_app_r. simpl. rewrite <- app_assoc.
    rewrite (IH p (NUL :: zs) Hws' Hp).
    rewrite length_app. simpl. rewrite Nat.add_1_r, replicate_S_end.
    rewrite <- app_assoc. reflexivity.
Qed.

Lemma c_str_nul_free (s rest : list ascii) :
  Forall (fun c => c <> NUL) s ->
  c_str (s ++ rest) = (s ++ c_str rest)%list.
Proof.
  induction 1 as [|c r Hc _ IH]; [reflexivity|].
  simpl. destruct (Ascii.eqb_spec c NUL); [contradiction|].
  rewrite IH. reflexivity.
Qed.

Lemma trailing_spaces (s : list ascii) :
  exists p ws, s = (p ++ ws)%list /\
    Forall (fun c => isspace c = true) ws /\
    (forall c, last p = Some c -> isspace c = false).
Proof.
  induction s as [|c s' IH] using rev_ind.
  - exists [], []. repeat split; [constructor|discriminate].
  - destruct (isspace c) eqn:Hc.
    + destruct IH as (p & ws & -> & Hws & Hp).
      exists p, (ws ++ [c])%list. rewrite app_assoc.
      repeat split; [|exact Hp].
      apply Forall_app. split; [exact Hws|]. constructor; [exact Hc|constructor].
    + exists (s' ++ [c])%list, []. rewrite app_nil_r.
      repeat split; [constructor|].
      intros a. rewrite last_snoc. intros [= <-]. exact Hc.
Qed.

(** X15.  For a buffer holding the NUL-free string [s], followed by
    nothing or by a terminator and anything else: after [rtrim] the buffer
    holds [s] without its trailing spaces, all of them, and what followed
    the string is as it was. *)
Theorem rtrim_trailing_spaces (s tail : list ascii) :
  Forall (fun c => c <> NUL) s ->
  (tail = [] \/ exists rest, tail = NUL :: rest) ->
  (exists ws, s = (c_str (rtrim (s ++ tail)) ++ ws)%list /\
     Forall (fun c => isspace c = true) ws) /\
  (forall c, last (c_str (rtrim (s ++ tail))) = Some c -> isspace c = false) /\
  drop (List.length s) (rtrim (s ++ tail)) = tail.
Proof.
  intros Hs Htail.
  assert (Hct : c_str tail = []).
  { destruct Htail as [->|[rest ->]]; reflexivity. }
  unfold rtrim. rewrite c_str_nul_free, Hct, app_nil_r by exact Hs.
  destruct (trailing_spaces s) as (p & ws & -> & Hws & Hp).
  rewrite <- app_assoc, rtrim_from_spaces by assumption.
  apply Forall_app in Hs as [Hpn _].
  assert (Hcs : c_str (p ++ replicate (List.length ws) NUL ++ tail) = p).
  { rewrite c_str_nul_free by exact Hpn.
    destruct ws as [|w ws']; simpl; [|apply app_nil_r].
    rewrite Hct. apply app_nil_r. }
  rewrite Hcs. split; [|split].
  - exists ws. auto.
  - exact Hp.
  - rewrite length_app, app_assoc, drop_app_length'; [reflexivity|].
    rewrite !length_app, length_replicate. reflexivity.
Qed.

Lemma rtrim_trailing_spaces_witness :
  let s := list_ascii_of_string "Hub  " in
  let tail := list_ascii_of_string (String NUL "xy") in
  (exists ws, s = (c_str (rtrim (s ++ tail)) ++ ws)%list /\
     Forall (fun c => isspace c = true) ws) /\
  (forall c, last (c_str (rtrim (s ++ tail))) = Some c -> isspace c = false) /\
  drop (List.length s) (rtrim (s ++ tail)) = tail.
Proof.
  intros s tail. apply (rtrim_trailing_spaces s tail).
  - repeat constructor; discriminate.
  - right. eexists. reflexivity.
Defined.

(** ** The port list of [-p] *)

Lemma port_digit_char (c : ascii) :
  ((49 <=? N_of_ascii c) && (N_of_ascii c <=? 57))%N = true ->
  Ascii.eqb c NUL = false /\
  (negb (isdigit c) || Ascii.eqb c "0") = false /\
  (forall r, (strcasecmp (String c r) "all" =? 0) = false) /\
  exists d, 0 <= d < 9 /\ char_code c - char_code "1" = d /\
    forall k, 0 <= k < 9 -> Ascii.eqb c (digit_char (k + 1)) = (k =? d).
Proof.
  intros Hc.
  destruct c as [[] [] [] [] [] [] [] []]; try discriminate Hc;
    (split; [reflexivity|]); (split; [reflexivity|]);
    (split; [intros r; reflexivity|]);
    eexists; (split; [|split; [reflexivity|]]); try (vm_compute; split; congruence);
    intros k Hk;
    assert (Hcases : k = 0 \/ k = 1 \/ k = 2 \/ k = 3 \/ k = 4 \/ k = 5 \/
                     k = 6 \/ k = 7 \/ k = 8) by lia;
    repeat (destruct Hcases as [->|Hcases]); try subst k; reflexivity.
Qed.

Lemma testbit_one_shifted (d k : Z) :
  0 <= d -> Z.testbit (Z.shiftl 1 d) k = (k =? d).
Proof.
  intros Hd. rewrite Z.shiftl_1_l, Z.pow2_bits_eqb by exact Hd.
  apply Z.eqb_sym.
Qed.

Lemma parse_port_list_digits (s : string) :
  forall acc msgs,
  port_digits s = true ->
  exists m,
    parse_port_list s acc msgs = Some (m, msgs) /\
    (forall k, 0 <= k < 9 ->
       Z.testbit m k = Z.testbit acc k || occurs (digit_char (k + 1)) s) /\
    (forall k, 9 <= k -> Z.testbit m k = Z.testbit acc k).
Proof.
  induction s as [|c r IH]; intros acc msgs Hs.
  - exists acc. split; [reflexivity|]. split; intros k _.
    + simpl. rewrite orb_false_r. reflexivity.
    + reflexivity.
  - cbn [port_digits] in Hs. apply andb_true_iff in Hs as [Hc Hr].
    destruct (port_digit_char c Hc) as (Hnul & Hmsg & _ & d & Hd & Hcode & Heq).
    cbn [parse_port_list]. rewrite Hnul, Hmsg, Hcode.
    destruct (Z.leb_spec 0 d); [|lia]. destruct (Z.ltb_spec d 31); [|lia].
    cbn [andb].
    destruct (IH (Z.lor acc (Z.shiftl 1 d)) msgs Hr) as (m & -> & Hlow & Hhigh).
    exists m. split; [reflexivity|]. split; intros k Hk.
    + rewrite (Hlow k Hk), Z.lor_spec, testbit_one_shifted by lia.
      cbn [occurs]. rewrite (Heq k Hk), orb_assoc. reflexivity.
    + rewrite (Hhigh k Hk), Z.lor_spec, testbit_one_shifted by lia.
      destruct (Z.eqb_spec k d); [lia|]. apply orb_false_r.
Qed.

Lemma low_bits_bound (m : Z) :
  (forall k, 9 <= k -> Z.testbit m k = false) -> 0 <= m < 512.
Proof.
  intros Hhigh.
  assert (E : m = Z.land m (Z.ones 9)).
  { apply Z.bits_inj'. intros n Hn. rewrite Z.land_spec.
    destruct (Z.lt_ge_cases n 9).
    - rewrite Z.ones_spec_low by lia. symmetry. apply andb_true_r.
    - rewrite Hhigh by lia. reflexivity. }
  rewrite Z.land_ones in E by lia. rewrite E.
  apply Z.mod_pos_bound. lia.
Qed.

(** X16.  For a non-empty argument of [-p] made of the digits 1 to 9
    only, the port mask is defined, no message is printed, the mask is
    within [ALL_HUB_PORTS] and not 0, and bit [k - 1] is set exactly when
    the digit [k] occurs in the argument: order and repetition of the
    digits do not matter, and the previous mask is discarded. *)
Theorem parse_ports_digits (optarg : string) (opt_ports : Z) :
  optarg <> "" ->
  port_digits optarg = true ->
  exists m,
    parse_ports_option optarg opt_ports = Some (m, O) /\
    0 < m <= ALL_HUB_PORTS /\
    forall k, 1 <= k <= 9 ->
      Z.testbit m (k - 1) = occurs (digit_char k) optarg.
Proof.
  intros Hne Hs.
  destruct (parse_port_list_digits optarg 0 O Hs) as (m & Hm & Hlow & Hhigh).
  exists m.
  destruct optarg as [|c r]; [contradiction|].
  pose proof Hs as Hs'. cbn [port_digits] in Hs'.
  apply andb_true_iff in Hs' as [Hc _].
  destruct (port_digit_char c Hc) as (Hnul & _ & Hall & d & Hd & _ & Heq).
  unfold parse_ports_option. rewrite Hall. cbn [strlen]. rewrite Hnul.
  cbn [Nat.ltb Nat.leb]. split; [exact Hm|].
  assert (Hbits : forall k, 1 <= k <= 9 ->
            Z.testbit m (k - 1) = occurs (digit_char k) (String c r)).
  { intros k Hk. rewrite Hlow by lia. rewrite Z.testbit_0_l.
    replace (k - 1 + 1) with k by lia. reflexivity. }
  split; [|exact Hbits].
  assert (Hb : 0 <= m < 512).
  { apply low_bits_bound. intros k Hk. rewrite Hhigh by exact Hk.
    apply Z.testbit_0_l. }
  assert (Hd1 : Z.testbit m d = true).
  { replace d with (d + 1 - 1) at 1 by lia. rewrite Hbits by lia.
    cbn [occurs]. rewrite (Heq d) by lia. rewrite Z.eqb_refl. reflexivity. }
  assert (m <> 0) by (intros ->; rewrite Z.testbit_0_l in Hd1; discriminate).
  change ALL_HUB_PORTS with 511. lia.
Qed.

Lemma parse_ports_digits_witness :
  exists m,
    parse_ports_option "3113" 511 = Some (m, O) /\
    0 < m <= ALL_HUB_PORTS /\
    forall k, 1 <= k <= 9 ->
      Z.testbit m (k - 1) = occurs (digit_char k) "3113".
Proof.
  apply (parse_ports_digits "3113" 511); [discriminate|reflexivity].
Defined.

(** ** A dual with a matching port path *)

Lemma first_index_complete (test : hub_info -> bool) (i : nat)
    (rest : list hub_info) :
  forall j idx hk,
  rest !! idx = Some hk -> test hk = true -> (j + idx)%nat <> i ->
  exists k, first_index test i j rest = Some k /\ (k <= j + idx)%nat.
Proof.
  induction rest as [|hj rest' IH]; intros j idx hk Hl Ht Hne;
    [discriminate|].
  cbn [first_index].
  destruct (negb (Nat.eqb i j) && test hj) eqn:E.
  - exists j. split; [reflexivity|lia].
  - destruct idx as [|idx'].
    + simpl in Hl. injection Hl as ->. rewrite Ht, andb_true_r in E.
      apply negb_false_iff, Nat.eqb_eq in E. lia.
    + simpl in Hl. destruct (IH (S j) idx' hk Hl Ht) as (k & Hk & Hle);
        [lia|].
      exists k. split; [exact Hk|lia].
Qed.

Lemma first_index_promoted (test : hub_info -> bool) (i : nat)
    (l l' : list hub_info) :
  (forall h, test (set_actionable true h) = test h) ->
  Forall2 promotes l l' ->
  forall j, first_index test i j l' = first_index test i j l.
Proof.
  intros Htest. induction 1 as [|h h' r r' Hh _ IH]; intros j;
    [reflexivity|].
  cbn [first_index]. rewrite IH.
  destruct Hh as [->| ->]; [reflexivity|]. rewrite Htest. reflexivity.
Qed.

Lemma correlate_loop_split (exact : bool) (a b : nat) :
  forall i st,
  correlate_loop exact (a + b) i st =
  correlate_loop exact b (i + a) (correlate_loop exact a i st).
Proof.
  induction a as [|a IH]; intros i st.
  - simpl. rewrite Nat.add_0_r. reflexivity.
  - cbn [Nat.add correlate_loop]. rewrite IH.
    replace (S i + a)%nat with (i + S a)%nat by lia. reflexivity.
Qed.

(** X17.  With [exact] off, when hub [i] is actionable after filtering
    and some other record [j] of the opposite generation and the same
    vendor has the same port path, the pass leaves actionable the first
    such record, at an index not above [j]. *)
Theorem dual_path_promoted (hs : list hub_info) (i j : nat)
    (hi hj : hub_info) :
  hs !! i = Some hi ->
  actionable hi = true ->
  hs !! j = Some hj ->
  j <> i ->
  dual_candidate hi hj = true ->
  path_match hi hj = true ->
  exists k hk,
    (k <= j)%nat /\ k <> i /\
    fst (correlate false hs) !! k = Some hk /\
    actionable hk = true /\
    dual_candidate hi hk = true /\ path_match hi hk = true.
Proof.
  intros Hi Hai Hj Hji Hcand Hpath.
  set (test := fun h => dual_candidate hi h && path_match hi h).
  assert (Htest : forall h, test (set_actionable true h) = test h)
    by reflexivity.
  destruct (first_index_complete test i hs 0 j hj Hj) as (k & Hk & Hkj);
    [unfold test; rewrite Hcand, Hpath; reflexivity | simpl; lia |].
  simpl in Hkj.
  assert (Hlen : (i < List.length hs)%nat)
    by (apply lookup_lt_is_Some; eauto).
  unfold correlate.
  replace (List.length hs) with (i + S (List.length hs - S i))%nat by lia.
  rewrite correlate_loop_split. simpl Nat.add. cbn [correlate_loop].
  pose proof (correlate_loop_promoted false i 0 (hs, 0)) as Hp1.
  destruct (correlate_loop false i 0 (hs, 0)) as [hs1 c1]. simpl in Hp1.
  destruct (Forall2_lookup_l _ _ _ _ _ Hp1 Hi) as (hi1 & Hi1 & Hrel).
  assert (hi1 = hi) as ->.
  { destruct Hrel as [->| ->]; [reflexivity|].
    apply set_actionable_same, Hai. }
  assert (Hfd : find_dual hi i 0 hs1 None = Some k).
  { rewrite find_dual_first_index. fold test.
    rewrite (first_index_promoted test i hs hs1 Htest Hp1), Hk.
    reflexivity. }
  assert (Hstep : correlate_step false i (hs1, c1) =
                  (alter (set_actionable true) k hs1,
                   if below_ss hi || false then c1 + 1 else c1)).
  { unfold correlate_step. rewrite Hi1, Hai, Hfd. reflexivity. }
  rewrite Hstep.
  pose proof (correlate_loop_promoted false (List.length hs - S i) (S i)
                (alter (set_actionable true) k hs1,
                 if below_ss hi || false then c1 + 1 else c1)) as Hp2.
  cbn [fst] in Hp2.
  apply first_index_sound in Hk as (Hki & _ & hk0 & Hk0 & Ht0).
  rewrite Nat.sub_0_r in Hk0.
  destruct (Forall2_lookup_l _ _ _ _ _ Hp1 Hk0) as (hk1 & Hk1 & Hrel1).
  assert (Hk2 : alter (set_actionable true) k hs1 !! k =
                Some (set_actionable true hk1)).
  { rewrite list_lookup_alter_eq, Hk1. reflexivity. }
  destruct (Forall2_lookup_l _ _ _ _ _ Hp2 Hk2) as (hkf & Hkf & Hrelf).
  exists k, hkf. split; [exact Hkj|]. split; [exact Hki|].
  split; [exact Hkf|].
  assert (Hfields : actionable hkf = true /\ test hkf = test hk0).
  { destruct Hrelf as [->| ->]; destruct Hrel1 as [->| ->];
      split; reflexivity. }
  destruct Hfields as [Ha Ht]. split; [exact Ha|].
  rewrite Ht0 in Ht. unfold test in Ht.
  apply andb_true_iff in Ht. exact Ht.
Qed.

Lemma dual_path_promoted_witness :
  let hs := fst (scan "1-1" "" ([], true) [usb3_persona; usb2_persona]) in
  let hi := set_actionable true
              (snd (get_hub_info usb2_persona hub_info_zero)) in
  exists k hk,
    (k <= 0)%nat /\ k <> 1%nat /\
    fst (correlate false hs) !! k = Some hk /\
    actionable hk = true /\
    dual_candidate hi hk = true /\ path_match hi hk = true.
Proof.
  intros hs hi.
  apply (dual_path_promoted hs 1 0 hi
           (snd (get_hub_info usb3_persona hub_info_zero)));
    try reflexivity.
  discriminate.
Defined.

(** ** One power phase *)

Lemma land_one_shifted (n x : Z) :
  0 <= n ->
  (Z.land (Z.shiftl 1 n) x =? 0) = negb (Z.testbit x n).
Proof.
  intros Hn.
  assert (E : Z.land (Z.shiftl 1 n) x =
              if Z.testbit x n then Z.shiftl 1 n else 0).
  { apply Z.bits_inj'. intros m Hm.
    rewrite Z.land_spec, testbit_one_shifted by exact Hn.
    destruct (Z.testbit x n) eqn:Hx.
    - rewrite testbit_one_shifted by exact Hn.
      destruct (Z.eqb_spec m n) as [->|]; [rewrite Hx|]; reflexivity.
    - rewrite Z.testbit_0_l.
      destruct (Z.eqb_spec m n) as [->|]; [rewrite Hx|]; reflexivity. }
  rewrite E. destruct (Z.testbit x n); [|reflexivity].
  rewrite Z.shiftl_1_l. destruct (Z.eqb_spec (2 ^ n) 0); [|reflexivity].
  pose proof (Z.pow_pos_nonneg 2 n). lia.
Qed.




(** ** The value returned for a status word *)

(** C10.  When the transfer succeeds, [get_port_status] returns the status
    word read as a signed 16-bit number: the word itself when bit 15 is
    clear, and the word less 65536, a negative value, when bit 15 is set.
    That is the value a transfer failing with that return code gives, and
    every libusb error code is such a value.  For the word 0xFFFF the
    value is -1, what a null handle gives, and the status display takes it
    for a failure. *)
Theorem get_port_status_bit15_negative
    (d : usb_device) (port rc w : Z) :
  port_xfer d port = (rc, w) ->
  0 <= rc ->
  0 <= w < 65536 ->
  (Z.testbit w 15 = false -> get_port_status (Some d) port = w) /\
  (Z.testbit w 15 = true ->
     get_port_status (Some d) port = w - 65536 /\
     -32768 <= get_port_status (Some d) port < 0 /\
     forall d' w',
       port_xfer d' port = (w - 65536, w') ->
       get_port_status (Some d') port = get_port_status (Some d) port) /\
  (forall d' e w',
     port_xfer d' port = (e, w') -> e < 0 ->
     get_port_status (Some d') port = e) /\
  (forall e, In e libusb_error_codes ->
     32768 <= 65536 + e < 65536 /\ Z.testbit (65536 + e) 15 = true) /\
  (w = 0xFFFF ->
     get_port_status (Some d) port = -1 /\
     get_port_status None port = -1 /\
     forall bcd n, print_ports d bcd 0 (S n) port = [CannotRead port]).
Proof.
  intros Hx Hrc Hw.
  assert (Hval : get_port_status (Some d) port = int16_of_word w).
  { unfold get_port_status. rewrite Hx.
    destruct (Z.ltb_spec rc 0); [lia|reflexivity]. }
  assert (Hfail : forall d' e w',
            port_xfer d' port = (e, w') -> e < 0 ->
            get_port_status (Some d') port = e).
  { intros d' e w' Hx' He. unfold get_port_status. rewrite Hx'.
    destruct (Z.ltb_spec e 0); [reflexivity|lia]. }
  split; [|split; [|split; [exact Hfail|split]]].
  - intros Hbit. rewrite Hval. apply int16_of_word_small.
    destruct (Z.lt_ge_cases w 32768) as [Hlt|Hge]; [lia|].
    assert (Ht : Z.testbit w 15 = true).
    { apply Z.testbit_true; [lia|]. change (2 ^ 15) with 32768.
      assert (w / 32768 = 1) as ->
        by (symmetry; apply (Z.div_unique w 32768 1 (w - 32768)); lia).
      reflexivity. }
    congruence.
  - intros Hbit. pose proof (bit15_set w Hw Hbit) as Hge.
    rewrite Hval, int16_of_word_big by lia.
    split; [reflexivity|]. split; [lia|].
    intros d' w' Hx'. apply (Hfail d' _ w' Hx'). lia.
  - intros e He. simpl in He.
    repeat (destruct He as [<-|He]; [split; [lia|reflexivity]|]).
    destruct He.
  - intros ->. split; [rewrite Hval; reflexivity|].
    split; [reflexivity|]. intros bcd n. cbn [print_ports].
    rewrite Hval. reflexivity.
Qed.

Lemma get_port_status_bit15_negative_witness :
  let d := with_port_xfer (fun _ => (4, 0xFFFF))
             (sample_hub 0x0210 0x0451 0x8142 1 [1]) in
  (Z.testbit 0xFFFF 15 = false -> get_port_status (Some d) 1 = 0xFFFF) /\
  (Z.testbit 0xFFFF 15 = true ->
     get_port_status (Some d) 1 = 0xFFFF - 65536 /\
     -32768 <= get_port_status (Some d) 1 < 0 /\
     forall d' w',
       port_xfer d' 1 = (0xFFFF - 65536, w') ->
       get_port_status (Some d') 1 = get_port_status (Some d) 1) /\
  (forall d' e w',
     port_xfer d' 1 = (e, w') -> e < 0 ->
     get_port_status (Some d') 1 = e) /\
  (forall e, In e libusb_error_codes ->
     32768 <= 65536 + e < 65536 /\ Z.testbit (65536 + e) 15 = true) /\
  (0xFFFF = 0xFFFF ->
     get_port_status (Some d) 1 = -1 /\
     get_port_status None 1 = -1 /\
     forall bcd n, print_ports d bcd 0 (S n) 1 = [CannotRead 1]).
Proof.
  intro d.
  apply (get_port_status_bit15_negative d 1 4 0xFFFF);
    [reflexivity | lia | lia].
Defined.

(** ** The port mask *)

Lemma shl1_int_defined (n : Z) :
  0 <= n <= 30 -> shl1_int n = Z.shiftl 1 n.
Proof.
  intros Hn. unfold shl1_int, int32_of_word.
  rewrite (Z.mod_small n 32), Z.shiftl_1_l by lia.
  assert (Hp : 0 < 2 ^ n < 2147483648).
  { split; [apply Z.pow_pos_nonneg; lia|].
    change 2147483648 with (2 ^ 31). apply Z.pow_lt_mono_r; lia. }
  rewrite Z.mod_small by lia.
  destruct (Z.ltb_spec (2 ^ n) 2147483648); lia.
Qed.

(** For the ports on which C defines the shift, a port is skipped exactly
    when the mask is positive and its bit [port - 1] is clear. *)
Lemma port_skipped_selected (portmask q : Z) :
  1 <= q <= 31 ->
  port_skipped portmask q = negb (port_selected portmask q).
Proof.
  intros Hq. unfold port_skipped, port_selected.
  rewrite shl1_int_defined, Z.land_comm, land_one_shifted by lia.
  destruct (Z.ltb_spec 0 portmask), (Z.leb_spec portmask 0); try lia;
    destruct (Z.testbit portmask (q - 1)); reflexivity.
Qed.

Lemma in_port_range (n : nat) :
  forall first q, In q (port_range first n) ->
  first <= q < first + Z.of_nat n.
Proof.
  induction n as [|n IH]; intros first q Hin; [destruct Hin|].
  destruct Hin as [<-|Hin]; [lia|]. apply IH in Hin. lia.
Qed.

Lemma selected_ports (portmask first : Z) (n : nat) :
  1 <= first -> first + Z.of_nat n <= 32 ->
  List.filter (fun q => negb (port_skipped portmask q)) (port_range first n) =
  List.filter (port_selected portmask) (port_range first n).
Proof.
  intros Hf Hn. apply filter_ext_in. intros q Hq.
  apply in_port_range in Hq.
  rewrite port_skipped_selected by lia. apply negb_involutive.
Qed.

(** X5.  On a hub of at most 31 ports that can be opened, when no
    displayed port reads as -1, the display has one line for each port
    from 1 to [nports] that the mask selects (the mask is not positive, or
    its bit [port - 1] is set), with the status read and its labels, in
    increasing order, and nothing else. *)
Theorem print_port_status_lists_selected
    (hub : hub_info) (d : usb_device) (portmask : Z) :
  dev hub = Some d ->
  dev_open_rc d = 0 ->
  nports hub <= 31 ->
  (forall q, 1 <= q <= nports hub ->
             port_selected portmask q = true ->
             get_port_status (Some d) q <> -1) ->
  print_port_status hub portmask =
  map (port_line d (bcd_usb hub))
    (List.filter (port_selected portmask)
       (port_range 1 (Z.to_nat (nports hub)))).
Proof.
  intros Hdev Hopen Hmax Hok. unfold print_port_status.
  rewrite Hdev, Hopen. simpl.
  rewrite <- selected_ports by lia.
  apply print_ports_all. intros q Hq Hskip. apply Hok; [lia|].
  rewrite port_skipped_selected in Hskip by lia.
  apply negb_false_iff, Hskip.
Qed.

Lemma print_port_status_lists_selected_witness :
  let hub := snd (get_hub_info usb2_persona hub_info_zero) in
  print_port_status hub 5 =
  map (port_line usb2_persona (bcd_usb hub))
    (List.filter (port_selected 5)
       (port_range 1 (Z.to_nat (nports hub)))).
Proof.
  intro hub.
  apply (print_port_status_lists_selected hub usb2_persona 5).
  - reflexivity.
  - reflexivity.
  - vm_compute. discriminate.
  - intros q _ _. vm_compute. discriminate.
Defined.

Lemma print_ports_until_failure (d : usb_device) (bcd portmask : Z)
    (n : nat) :
  forall first p,
  first <= p < first + Z.of_nat n ->
  port_skipped portmask p = false ->
  get_port_status (Some d) p = -1 ->
  (forall q, first <= q < p -> port_skipped portmask q = false ->
             get_port_status (Some d) q <> -1) ->
  print_ports d bcd portmask n first =
  (map (port_line d bcd)
     (List.filter (fun q => negb (port_skipped portmask q))
        (port_range first (Z.to_nat (p - first))))
   ++ [CannotRead p])%list.
Proof.
  induction n as [|n IH]; intros first p Hrange Hsel Hfail Hprev; [lia|].
  cbn [print_ports].
  destruct (Z.eq_dec first p) as [->|Hne].
  - rewrite Hsel, Hfail, Z.sub_diag. reflexivity.
  - replace (Z.to_nat (p - first)) with (S (Z.to_nat (p - (first + 1))))
      by lia.
    cbn [port_range List.filter].
    rewrite (IH (first + 1) p) by
      (try assumption; try lia; intros q Hq; apply Hprev; lia).
    destruct (port_skipped portmask first) eqn:Hskip; cbn [negb].
    + reflexivity.
    + destruct (Z.eqb_spec (get_port_status (Some d) first) (-1)) as [E|_].
      * destruct (Hprev first); [lia | exact Hskip | exact E].
      * reflexivity.
Qed.

(** C6, amended.  On a hub of at most 31 ports that can be opened, when
    port [p] is the first displayed port whose status reads as -1, the
    display is: the status line of every selected port below [p], in
    increasing order, then the message for [p], and nothing for [p] or
    any port after it. *)
Theorem print_port_status_stops_at_failure
    (hub : hub_info) (d : usb_device) (portmask p : Z) :
  dev hub = Some d ->
  dev_open_rc d = 0 ->
  nports hub <= 31 ->
  1 <= p <= nports hub ->
  port_selected portmask p = true ->
  get_port_status (Some d) p = -1 ->
  (forall q, 1 <= q < p -> port_selected portmask q = true ->
             get_port_status (Some d) q <> -1) ->
  print_port_status hub portmask =
  (map (port_line d (bcd_usb hub))
     (List.filter (port_selected portmask)
        (port_range 1 (Z.to_nat (p - 1))))
   ++ [CannotRead p])%list.
Proof.
  intros Hdev Hopen Hmax Hp Hsel Hfail Hprev.
  unfold print_port_status. rewrite Hdev, Hopen. simpl.
  rewrite <- selected_ports by lia.
  apply print_ports_until_failure.
  - lia.
  - rewrite port_skipped_selected, Hsel by lia. reflexivity.
  - exact Hfail.
  - intros q Hq Hskip. apply Hprev; [lia|].
    rewrite port_skipped_selected in Hskip by lia.
    apply negb_false_iff, Hskip.
Qed.

Lemma print_port_status_stops_at_failure_witness :
  print_port_status hub_port2_unreadable 0 =
  (map (port_line
          (with_port_xfer
             (fun port => if port =? 2 then (-1, 0) else (4, 0x0100))
             usb2_persona)
          (bcd_usb hub_port2_unreadable))
     (List.filter (port_selected 0) (port_range 1 (Z.to_nat (2 - 1))))
   ++ [CannotRead 2])%list.
Proof.
  apply (print_port_status_stops_at_failure hub_port2_unreadable
           (with_port_xfer
              (fun port => if port =? 2 then (-1, 0) else (4, 0x0100))
              usb2_persona) 0 2).
  - reflexivity.
  - reflexivity.
  - vm_compute. discriminate.
  - vm_compute. split; discriminate.
  - reflexivity.
  - reflexivity.
  - intros q Hq _. assert (q = 1) as -> by lia. vm_compute. discriminate.
Defined.

(** ** What the pass counts *)

Lemma correlate_count_le (hs : list hub_info) :
  snd (correlate false hs) <=
  count_actionable_below_ss (fst (correlate false hs)).
Proof.
  pose proof (correlate_loop_bound (List.length hs) 0 (hs, 0)) as Hle.
  pose proof (correlate_loop_promoted false (List.length hs) 0 (hs, 0))
    as Hprom.
  apply Forall2_length in Hprom.
  fold (correlate false hs) in Hle, Hprom.
  destruct (correlate false hs) as [hs1 cnt]. simpl in *.
  rewrite take_ge in Hle by lia. apply Hle. lia.
Qed.

(** C2, amended.  With [exact] set the pass leaves the registry as
    filtering left it and counts every actionable record.  With [exact]
    off it counts records below USB 3.0 only: at least every such record
    that filtering left actionable, and no more than the pass leaves
    actionable. *)
Theorem correlate_counts_usb2_or_exact (hs : list hub_info) :
  correlate true hs = (hs, count_actionable hs) /\
  count_actionable_below_ss hs <= snd (correlate false hs) /\
  snd (correlate false hs) <=
    count_actionable_below_ss (fst (correlate false hs)).
Proof.
  split; [apply correlate_exact|].
  split; [apply hub_phys_count_ge|apply correlate_count_le].
Qed.

(** ** The return value and the registry *)

(** C4, as stated, fails: one device cannot be read and the only hub found
    is a USB 3.0 persona; it is actionable, and the function returns
    [LIBUSB_ERROR_ACCESS]. *)
Lemma permission_denied_with_actionable_usb3 :
  let r := usb_find_hubs "" "" false [unreadable_device; usb3_persona] in
  ret r = LIBUSB_ERROR_ACCESS /\
  map (fun h => (location h, bcd_usb h, actionable h)) (hubs r) =
    [("2-1", 0x0300, true)] /\
  exists h, In h (hubs r) /\ actionable h = true.
Proof.
  split; [reflexivity|]. split; [reflexivity|].
  eexists. split; [left; reflexivity|reflexivity].
Qed.

(** C4, amended.  [usb_find_hubs] returns [LIBUSB_ERROR_ACCESS], which is
    negative, exactly when [get_hub_info] failed for at least one scanned
    device and [hub_phys_count] is 0; in every other case it returns
    [hub_phys_count].  With [exact] set that count is the number of
    actionable records of the registry, which is the registry filtering
    left; with [exact] off it lies between the number of records below
    USB 3.0 that filtering left actionable and the number of those the
    pass leaves actionable. *)
Theorem usb_find_hubs_return (loc ven : string) (exact : bool)
    (devs : list usb_device) :
  let r := usb_find_hubs loc ven exact devs in
  let hs0 := fst (scan loc ven ([], true) devs) in
  (ret r = LIBUSB_ERROR_ACCESS <->
   (exists d, In d devs /\ is_candidate d = true /\ read_failed d = true) /\
   hub_phys_count r = 0) /\
  (ret r = LIBUSB_ERROR_ACCESS \/ ret r = hub_phys_count r) /\
  LIBUSB_ERROR_ACCESS < 0 /\
  0 <= hub_phys_count r /\
  (if exact
   then hub_phys_count r = count_actionable (hubs r) /\ hubs r = hs0
   else count_actionable_below_ss hs0 <= hub_phys_count r /\
        hub_phys_count r <= count_actionable_below_ss (hubs r)).
Proof.
  unfold usb_find_hubs.
  pose proof (scan_perm_ok loc ven devs ([], true)) as Hperm.
  destruct (scan loc ven ([], true) devs) as [hs0 ok] eqn:Hscan.
  pose proof (correlate_loop_count exact (List.length hs0) 0 (hs0, 0))
    as Hcnt.
  fold (correlate exact hs0) in Hcnt.
  assert (Hreg : if exact
            then snd (correlate exact hs0) =
                   count_actionable (fst (correlate exact hs0)) /\
                 fst (correlate exact hs0) = hs0
            else count_actionable_below_ss hs0 <= snd (correlate exact hs0) /\
                 snd (correlate exact hs0) <=
                   count_actionable_below_ss (fst (correlate exact hs0))).
  { destruct exact.
    - rewrite correlate_exact. split; reflexivity.
    - split; [apply hub_phys_count_ge|apply correlate_count_le]. }
  destruct (correlate exact hs0) as [hs1 cnt]. simpl in *.
  assert (Hok : ok = false <->
    exists d, In d devs /\ is_candidate d = true /\ read_failed d = true).
  { rewrite Hperm. split; [intros [H|H]; [discriminate|exact H]|auto]. }
  unfold LIBUSB_ERROR_ACCESS.
  split; [|split; [|split; [lia|split; [exact Hcnt|exact Hreg]]]].
  - destruct ok; simpl.
    + split; [intros ->; lia|]. intros [E _]. apply Hok in E. discriminate E.
    + destruct (Z.eqb_spec cnt 0) as [->|Hne]; simpl.
      * split; [|reflexivity]. intros _. split; [apply Hok|]; reflexivity.
      * split; [intros ->; lia|]. intros [_ E]. contradiction.
  - destruct (negb ok && (cnt =? 0)); auto.
Qed.
